(** * AM_Apprenticeship: cleaning helpers and attendance forecast of the WSL project

    A shallow embedding of [src/data_utils.py], [src/wsl_utils.py],
    [config/projects/wsl_config.py] and of the repository's own logic in
    [src/modelling.py], with the properties of the specification stated over
    it.

    Conventions of the embedding.
    - A pandas DataFrame is an ordered list of column labels and a list of
      rows, each row holding one cell per label ([DataFrame]).  The labels
      of a table are meant to be distinct, as those of a table read from a
      CSV file are.  A label borne by several columns selects a table, not
      a column: where the code goes on with [.str] this is the attribute
      error of pandas ([get_series]); elsewhere the theorems take the
      labels to be distinct.
    - A cell is a Python object: [str], [int], [float], [bool], [None] or
      [pd.NA] ([value]).  A text is the sequence of the bytes of its UTF-8
      encoding.
    - A float64 is an exact rational or one of the IEEE special values
      [inf], [-inf], [nan] ([num]); rounding error and signed zeros are not
      represented.
    - A raised exception is the [Raise] case of [result]; text written by
      [print] is collected in a list of lines.
    - pandas is read with its 2.x behaviour: [astype(str)] applies [str] to
      every element, the [.str] accessor needs an object column. *)

From Stdlib Require Import QArith Qcanon Ascii String.
From stdpp Require Import gmap strings list fin_maps pretty numbers.

Open Scope string_scope.
Open Scope Z_scope.

(** ** Exceptions *)

Inductive error :=
| KeyError (label : string)
| IndexError
| TypeError
| AttributeError.

Inductive result (A : Type) :=
| Ok (a : A)
| Raise (e : error).
Arguments Ok {A} a.
Arguments Raise {A} e.

Global Instance result_ret : MRet result := λ A a, Ok a.
Global Instance result_bind : MBind result := λ A B f m,
  match m with
  | Ok a => f a
  | Raise e => Raise e
  end.
Global Instance result_fmap : FMap result := λ A B f m,
  match m with
  | Ok a => Ok (f a)
  | Raise e => Raise e
  end.

Global Instance error_eq_dec : EqDecision error.
Proof. solve_decision. Defined.

Global Instance result_eq_dec {A} `{EqDecision A} : EqDecision (result A).
Proof. solve_decision. Defined.

Definition is_ok {A} (m : result A) : bool :=
  match m with Ok _ => true | Raise _ => false end.

(** ** float64 values *)

Module Num.

Inductive num :=
| Fin (q : Qc)
| PInf
| NInf
| NaN.

Definition zero : num := Fin (Q2Qc 0).
Definition one : num := Fin (Q2Qc 1).
Definition of_Z (z : Z) : num := Fin (Q2Qc (inject_Z z)).

(** Sign of a rational, as -1, 0 or 1. *)
Definition sgn (q : Qc) : Z := Z.sgn (Qnum (this q)).

(** The infinity of a given sign; a zero sign is the invalid operation. *)
Definition inf_of (s : Z) : num :=
  match s with
  | Z0 => NaN
  | Zpos _ => PInf
  | Zneg _ => NInf
  end.

Definition is_finite (x : num) : bool :=
  match x with Fin _ => true | _ => false end.

Definition is_nan (x : num) : bool :=
  match x with NaN => true | _ => false end.

Definition neg (x : num) : num :=
  match x with
  | Fin q => Fin (- q)%Qc
  | PInf => NInf
  | NInf => PInf
  | NaN => NaN
  end.

Definition add (x y : num) : num :=
  match x, y with
  | NaN, _ | _, NaN => NaN
  | Fin a, Fin b => Fin (a + b)%Qc
  | PInf, NInf | NInf, PInf => NaN
  | PInf, _ | _, PInf => PInf
  | NInf, _ | _, NInf => NInf
  end.

Definition sub (x y : num) : num := add x (neg y).

(** Sign of a value: [None] for nan. *)
Definition sign (x : num) : option Z :=
  match x with
  | Fin q => Some (sgn q)
  | PInf => Some 1
  | NInf => Some (-1)
  | NaN => None
  end.

Definition mul (x y : num) : num :=
  match x, y with
  | NaN, _ | _, NaN => NaN
  | Fin a, Fin b => Fin (a * b)%Qc
  | Fin a, PInf | PInf, Fin a => inf_of (sgn a)
  | Fin a, NInf | NInf, Fin a => inf_of (- sgn a)
  | PInf, PInf | NInf, NInf => PInf
  | PInf, NInf | NInf, PInf => NInf
  end.

(** Division as numpy does it on arrays: a zero divisor gives an infinity
    of the dividend's sign, [0/0] and [inf/inf] give nan, nothing is
    raised. *)
Definition div (x y : num) : num :=
  match x, y with
  | NaN, _ | _, NaN => NaN
  | Fin a, Fin b =>
      if decide (b = Q2Qc 0) then inf_of (sgn a) else Fin (a / b)%Qc
  | Fin _, (PInf | NInf) => zero
  | PInf, Fin b => if decide (sgn b = -1) then NInf else PInf
  | NInf, Fin b => if decide (sgn b = -1) then PInf else NInf
  | (PInf | NInf), (PInf | NInf) => NaN
  end.

Definition abs (x : num) : num :=
  match x with
  | Fin q => if decide (sgn q = -1) then Fin (- q)%Qc else Fin q
  | PInf | NInf => PInf
  | NaN => NaN
  end.

(** Comparisons: every comparison with nan is false. *)
Definition leb (x y : num) : bool :=
  match x, y with
  | NaN, _ | _, NaN => false
  | Fin a, Fin b => bool_decide (a ≤ b)%Qc
  | NInf, _ | _, PInf => true
  | PInf, _ | _, NInf => false
  end.

Definition ltb (x y : num) : bool :=
  match x, y with
  | NaN, _ | _, NaN => false
  | Fin a, Fin b => bool_decide (a < b)%Qc
  | PInf, _ | _, NInf => false
  | NInf, _ | _, PInf => true
  end.

Definition geb (x y : num) : bool := leb y x.

Definition eqb (x y : num) : bool :=
  match x, y with
  | Fin a, Fin b => bool_decide (a = b)
  | PInf, PInf | NInf, NInf => true
  | _, _ => false
  end.

(** [x ** n] for a natural exponent, as repeated multiplication. *)
Fixpoint pow (x : num) (n : nat) : num :=
  match n with
  | O => one
  | S n' => mul x (pow x n')
  end.

(** The fraction in lowest terms a finite value stands for. *)
Definition to_Q (x : num) : option Q :=
  match x with
  | Fin q => Some (this q)
  | _ => None
  end.

(** The integer a finite whole value stands for. *)
Definition to_Z (x : num) : option Z :=
  match x with
  | Fin q => if decide (Zpos (Qden (this q)) = 1) then Some (Qnum (this q)) else None
  | _ => None
  end.

End Num.

Abbreviation num := Num.num.
Abbreviation Fin := Num.Fin.
Abbreviation PInf := Num.PInf.
Abbreviation NInf := Num.NInf.
Abbreviation NaN := Num.NaN.


(** ** Python string operations used by the source *)

Module PyStr.

(** Whitespace removed by [str.strip()].  A text is the sequence of the
    bytes of its UTF-8 encoding.  The characters Python counts as
    whitespace are U+0009 to U+000D and U+001C to U+0020, of one byte;
    U+0085 and U+00A0, of two bytes; U+1680, U+2000 to U+200A, U+2028,
    U+2029, U+202F, U+205F and U+3000, of three bytes. *)
Definition is_space (c : ascii) : bool :=
  let n := N_of_ascii c in
  ((9 <=? n) && (n <=? 13) || (28 <=? n) && (n <=? 32))%N.

Definition is_space2 (c d : ascii) : bool :=
  let n := N_of_ascii c in
  let m := N_of_ascii d in
  ((n =? 194) && ((m =? 133) || (m =? 160)))%N.

Definition is_space3 (c d e : ascii) : bool :=
  let n := N_of_ascii c in
  let m := N_of_ascii d in
  let k := N_of_ascii e in
  ((n =? 225) && (m =? 154) && (k =? 128)
   || (n =? 226) && (m =? 128)
      && ((128 <=? k) && (k <=? 138) || (k =? 168) || (k =? 169) || (k =? 175))
   || (n =? 226) && (m =? 129) && (k =? 159)
   || (n =? 227) && (m =? 128) && (k =? 128))%N.

Fixpoint drop (n : nat) (s : string) : string :=
  match n, s with
  | S n', String _ s' => drop n' s'
  | _, _ => s
  end.

(** [sub in s] *)
Fixpoint contains (sub s : string) : bool :=
  String.prefix sub s ||
  match s with
  | "" => false
  | String _ s' => contains sub s'
  end.

(** [s.startswith(p)] *)
Definition startswith (p s : string) : bool := String.prefix p s.

(** [old] is replaced from left to right, without overlap; [skip] counts
    the characters of an occurrence that are still to be passed over. *)
Fixpoint replace_go (old new : string) (skip : nat) (s : string) : string :=
  match s with
  | "" => ""
  | String c s' =>
      match skip with
      | S k => replace_go old new k s'
      | O =>
          if String.prefix old s
          then new +:+ replace_go old new (String.length old - 1) s'
          else String c (replace_go old new 0 s')
      end
  end.

Fixpoint intersperse (new s : string) : string :=
  match s with
  | "" => ""
  | String c s' => String c (new +:+ intersperse new s')
  end.

(** [s.replace(old, new)]; an empty [old] matches before every character
    and at the end. *)
Definition replace (old new s : string) : string :=
  match old with
  | "" => new +:+ intersperse new s
  | _ => replace_go old new 0 s
  end.

(** [s.split(sep)] for a non-empty [sep]; [cur] is the current piece,
    reversed. *)
Fixpoint split_go (sep : string) (skip : nat) (cur s : string) : list string :=
  match s with
  | "" => [String.rev cur]
  | String c s' =>
      match skip with
      | S k => split_go sep k cur s'
      | O =>
          if String.prefix sep s
          then String.rev cur :: split_go sep (String.length sep - 1) "" s'
          else split_go sep 0 (String c cur) s'
      end
  end.

Definition split (sep s : string) : list string := split_go sep 0 "" s.

(** The text before and after the first occurrence of [sep], if any. *)
Fixpoint partition_go (sep cur s : string) : option (string * string) :=
  match s with
  | "" => None
  | String c s' =>
      if String.prefix sep s
      then Some (String.rev cur, drop (String.length sep) s)
      else partition_go sep (String c cur) s'
  end.

(** [s.split(sep, 1)] for a non-empty [sep]: one or two pieces. *)
Definition split1 (sep s : string) : list string :=
  match partition_go sep "" s with
  | Some (a, b) => [a; b]
  | None => [s]
  end.

(** [s.lstrip()] *)
Fixpoint lstrip (s : string) : string :=
  match s with
  | "" => ""
  | String c s1 =>
      if is_space c then lstrip s1
      else
        match s1 with
        | "" => s
        | String d s2 =>
            if is_space2 c d then lstrip s2
            else
              match s2 with
              | "" => s
              | String e s3 => if is_space3 c d e then lstrip s3 else s
              end
        end
  end.

(** [s.rstrip()] on the reversed text: the bytes of a character come last
    byte first. *)
Fixpoint rstrip_rev (s : string) : string :=
  match s with
  | "" => ""
  | String c s1 =>
      if is_space c then rstrip_rev s1
      else
        match s1 with
        | "" => s
        | String d s2 =>
            if is_space2 d c then rstrip_rev s2
            else
              match s2 with
              | "" => s
              | String e s3 => if is_space3 e d c then rstrip_rev s3 else s
              end
        end
  end.

(** [s.strip()] *)
Definition strip (s : string) : string :=
  String.rev (rstrip_rev (String.rev (lstrip s))).

(** [sep.join(parts)] *)
Definition join (sep : string) (parts : list string) : string :=
  String.concat sep parts.

(** ASCII lower-casing, for the case-insensitive spellings of [inf] and
    [nan]. *)
Definition lower_char (c : ascii) : ascii :=
  let n := N_of_ascii c in
  if ((65 <=? n) && (n <=? 90))%N then ascii_of_N (n + 32) else c.

Fixpoint lower (s : string) : string :=
  match s with
  | "" => ""
  | String c s' => String (lower_char c) (lower s')
  end.

End PyStr.

(** ** Numeric literals accepted by [pd.to_numeric]

    [pd.to_numeric] is pandas code.  Its grammar is embedded for decimal
    literals: an optional sign, digits with an optional fraction, an
    optional exponent, and the spellings of infinity and nan.  A literal
    without fraction and exponent is an integer. *)

Module Literal.
Import Num.

Inductive parsed :=
| PInt (z : Z)
| PFloat (x : num).

Definition digit (c : ascii) : option N :=
  let n := N_of_ascii c in
  if ((48 <=? n) && (n <=? 57))%N then Some (n - 48)%N else None.

(** Reads a run of digits: its value on top of [acc], the number of digits
    read and the rest of the text. *)
Fixpoint digits (acc : N) (cnt : nat) (s : string) : N * nat * string :=
  match s with
  | "" => (acc, cnt, s)
  | String c s' =>
      match digit c with
      | Some d => digits (10 * acc + d)%N (S cnt) s'
      | None => (acc, cnt, s)
      end
  end.

Definition sign_of (s : string) : bool * string :=
  match s with
  | String "-" s' => (true, s')
  | String "+" s' => (false, s')
  | _ => (false, s)
  end.

Definition signed (negative : bool) (z : Z) : Z :=
  if negative then - z else z.

(** [m * 10 ** e] as a rational. *)
Definition scale (m : Z) (e : Z) : Qc :=
  match e with
  | Zneg p => Q2Qc (m # Pos.pow 10 p)
  | _ => Q2Qc (inject_Z (m * 10 ^ e))
  end.

(** The exponent part: [None] when the text is malformed. *)
Definition exponent (s : string) : option Z :=
  match s with
  | "" => Some 0
  | String c s' =>
      if bool_decide (c = "e"%char ∨ c = "E"%char) then
        let '(negative, s'') := sign_of s' in
        match digits 0 0 s'' with
        | (e, S _, "") => Some (signed negative (Z.of_N e))
        | _ => None
        end
      else None
  end.

Definition special (negative : bool) (s : string) : option parsed :=
  let l := PyStr.lower s in
  if bool_decide (l = "inf" ∨ l = "infinity")
  then Some (PFloat (if negative then NInf else PInf))
  else if bool_decide (l = "nan") then Some (PFloat NaN)
  else None.

Definition parse (s : string) : option parsed :=
  let '(negative, body) := sign_of s in
  match special negative body with
  | Some p => Some p
  | None =>
      let '(ip, ni, rest) := digits 0 0 body in
      match rest with
      | "" =>
          match ni with
          | O => None
          | S _ => Some (PInt (signed negative (Z.of_N ip)))
          end
      | String "." rest' =>
          let '(m, nf, rest'') := digits ip 0 rest' in
          match (ni + nf)%nat with
          | O => None
          | S _ =>
              e ← exponent rest'';
              Some (PFloat (Fin (scale (signed negative (Z.of_N m))
                                       (e - Z.of_nat nf))))
          end
      | _ =>
          match ni with
          | O => None
          | S _ =>
              e ← exponent rest;
              match rest with
              | "" => None
              | _ => Some (PFloat (Fin (scale (signed negative (Z.of_N ip)) e)))
              end
          end
      end
  end.

End Literal.

(** ** Cells and tables *)

Module Frame.
Import Num.

(** A cell of a table: the Python object it holds.  [VFloat NaN] is
    [np.nan], the null of pandas; [VNone] is [None] and [VNA] is [pd.NA]. *)
Inductive value :=
| VStr (s : string)
| VInt (z : Z)
| VFloat (x : num)
| VBool (b : bool)
| VNone
| VNA.

Global Instance num_eq_dec : EqDecision num.
Proof. solve_decision. Defined.

Global Instance num_inhabited : Inhabited num := populate NaN.

Global Instance value_eq_dec : EqDecision value.
Proof. solve_decision. Defined.

Global Instance value_inhabited : Inhabited value := populate VNA.

(** [pd.notna(x)] *)
Definition notna (v : value) : bool :=
  match v with
  | VFloat NaN | VNone | VNA => false
  | _ => true
  end.

(** A DataFrame: its column labels in order, and its rows in index order,
    one cell per label. *)
Record DataFrame := mkDF {
  columns : list string;
  rows : list (list value)
}.

(** Every row has one cell per column label. *)
Definition wf (df : DataFrame) : Prop :=
  Forall (λ r : list value, length r = length (columns df)) (rows df).

(** Position of a label among the columns. *)
Definition col_index (c : string) (cols : list string) : option nat :=
  fst <$> list_find (λ c', c' = c) cols.

(** [c in df.columns] *)
Definition has_col (df : DataFrame) (c : string) : bool :=
  bool_decide (c ∈ columns df).

(** [df.empty]: some axis has length zero. *)
Definition empty (df : DataFrame) : bool :=
  bool_decide (columns df = [] ∨ rows df = []).

(** [row[c]] for a row of a table with the labels [cols]. *)
Definition row_get (cols : list string) (r : list value) (c : string)
  : result value :=
  match col_index c cols with
  | Some i => Ok (r !!! i)
  | None => Raise (KeyError c)
  end.

(** [df[c]] *)
Definition get_col (df : DataFrame) (c : string) : result (list value) :=
  match col_index c (columns df) with
  | Some i => Ok ((λ r : list value, r !!! i) <$> rows df)
  | None => Raise (KeyError c)
  end.

(** The label is borne by more than one column. *)
Definition duplicated (c : string) (cols : list string) : Prop :=
  (1 < length (filter (λ c', c' = c) cols))%nat.

Global Instance duplicated_dec (c : string) (cols : list string) :
  Decision (duplicated c cols).
Proof. unfold duplicated. apply _. Defined.

(** [df[c]] where the code goes on with the [.str] accessor: a label borne
    by several columns selects a table, not a column, and a table has no
    [.str]. *)
Definition get_series (df : DataFrame) (c : string)
  : result (list value) :=
  vs ← get_col df c;
  if decide (duplicated c (columns df)) then Raise AttributeError else Ok vs.

(** [df[c] = vs]: an existing column is overwritten in place, a new one is
    appended as the last column. *)
Definition set_col (df : DataFrame) (c : string) (vs : list value)
  : DataFrame :=
  match col_index c (columns df) with
  | Some i =>
      mkDF (columns df)
           (zip_with (λ (r : list value) v, <[i:=v]> r) (rows df) vs)
  | None =>
      mkDF (columns df ++ [c])%list
           (zip_with (λ (r : list value) v, (r ++ [v])%list) (rows df) vs)
  end.

(** [df[c] = v] for a scalar [v] *)
Definition set_col_scalar (df : DataFrame) (c : string) (v : value)
  : DataFrame :=
  set_col df c (replicate (length (rows df)) v).

(** The cell of row [i] under label [c]. *)
Definition cell (df : DataFrame) (i : nat) (c : string) : option value :=
  r ← rows df !! i;
  j ← col_index c (columns df);
  r !! j.

(** The column has the object dtype, which the [.str] accessor needs: it
    is not made of numbers and booleans only. *)
Definition is_object (vs : list value) : bool :=
  match vs with
  | [] => true
  | _ =>
      existsb (λ v, match v with
                    | VInt _ | VFloat _ | VBool _ => false
                    | _ => true
                    end) vs
  end.

(** [series.str]: [AttributeError] unless the column has the object dtype. *)
Definition str_accessor (vs : list value) : result (list value) :=
  if is_object vs then Ok vs else Raise AttributeError.

(** A [.str] method on one cell: applied to text, nan for anything else. *)
Definition str_method (f : string → value) (v : value) : value :=
  match v with
  | VStr s => f s
  | _ => VFloat NaN
  end.

(** Cells compared with Python's [==], whose result is then tested for
    truth: the truth value of [pd.NA] is a [TypeError]. *)
Definition eq_str (v : value) (s : string) : result bool :=
  match v with
  | VStr t => Ok (bool_decide (t = s))
  | VNA => Raise TypeError
  | _ => Ok false
  end.

Definition eq_int (v : value) (n : Z) : result bool :=
  match v with
  | VInt z => Ok (bool_decide (z = n))
  | VFloat x => Ok (eqb x (of_Z n))
  | VBool b => Ok (bool_decide ((if b then 1 else 0) = n))
  | VNA => Raise TypeError
  | _ => Ok false
  end.

(** [x in l] for a list of strings. *)
Fixpoint in_list (v : value) (l : list string) : result bool :=
  match l with
  | [] => Ok false
  | s :: l' =>
      b ← eq_str v s;
      if b : bool then Ok true else in_list v l'
  end.

(** The float a numeric cell holds; text has none. *)
Definition to_num (v : value) : result num :=
  match v with
  | VInt z => Ok (of_Z z)
  | VFloat x => Ok x
  | VBool b => Ok (of_Z (if b then 1 else 0))
  | VNone | VNA => Ok NaN
  | VStr _ => Raise TypeError
  end.

Section text.
(** [repr] of a finite float is Python's shortest round-trip printing; it
    is a parameter of the embedding. *)
Variable float_repr : Qc → string.

(** [str(v)], which [astype(str)] applies to every cell. *)
Definition py_str (v : value) : string :=
  match v with
  | VStr s => s
  | VInt z => pretty z
  | VFloat (Fin q) => float_repr q
  | VFloat PInf => "inf"
  | VFloat NInf => "-inf"
  | VFloat NaN => "nan"
  | VBool true => "True"
  | VBool false => "False"
  | VNone => "None"
  | VNA => "<NA>"
  end.
End text.

(** [pd.to_numeric(texts, errors="coerce")]: a text that is no literal
    becomes nan; the column is of integers when every text is an integer
    literal and of floats otherwise. *)
Definition to_numeric (texts : list string) : list value :=
  let ps := Literal.parse <$> texts in
  if forallb (λ p, match p with Some (Literal.PInt _) => true | _ => false end) ps
  then (λ p, match p with
             | Some (Literal.PInt z) => VInt z
             | _ => VFloat NaN
             end) <$> ps
  else (λ p, match p with
             | Some (Literal.PInt z) => VFloat (of_Z z)
             | Some (Literal.PFloat x) => VFloat x
             | None => VFloat NaN
             end) <$> ps.

End Frame.

Export Frame.

(** ** Printing *)

(** A computation that prints lines and returns or raises. *)
Record io (A : Type) := IO {
  out : list string;
  res : result A
}.
Arguments IO {A} out res.
Arguments out {A} _.
Arguments res {A} _.

Global Instance io_ret : MRet io := λ A a, IO [] (Ok a).
Global Instance io_bind : MBind io := λ A B f m,
  match res m with
  | Ok a => IO (out m ++ out (f a))%list (res (f a))
  | Raise e => IO (out m) (Raise e)
  end.

Definition print (line : string) : io unit := IO [line] (Ok tt).
Definition lift {A} (r : result A) : io A := IO [] r.

(** ** src/data_utils.py *)

Module DataUtils.

Section data_utils.
Variable float_repr : Qc → string.

(** [df[column].astype(str).str.replace(substring, "", regex=False)] *)
Definition remove_string_parts (df : DataFrame) (column substring : string)
  : result DataFrame :=
  vs ← get_series df column;
  Ok (set_col df column
        ((λ v, VStr (PyStr.replace substring "" (py_str float_repr v))) <$> vs)).

(** [df.rename(columns=columns_map)]: a label that is a key of the map is
    replaced by its image, any other label is kept; the cells are
    untouched. *)
Definition rename_label (columns_map : gmap string string) (c : string)
  : string :=
  default c (columns_map !! c).

Definition convert_column_names (df : DataFrame)
    (columns_map : gmap string string) : DataFrame :=
  mkDF (rename_label columns_map <$> columns df) (rows df).

(** A mapping no two keys of which have the same new name. *)
Definition injective_map (m : gmap string string) : Prop :=
  ∀ k1 k2 v, m !! k1 = Some v → m !! k2 = Some v → k1 = k2.

(** [inv] is the exact inverse [{new: old}] of the mapping [{old: new}]. *)
Definition inverse_of (m inv : gmap string string) : Prop :=
  ∀ k v, inv !! v = Some k ↔ m !! k = Some v.

(** [df[columns]]: the positions of the listed labels, [KeyError] for a
    label that is no column. *)
Definition select (df : DataFrame) (cols : list string)
  : result (list nat) :=
  mapM (λ c, match col_index c (columns df) with
             | Some i => Ok i
             | None => Raise (KeyError c)
             end) cols.

(** ["_".join] of the text of the selected cells of one row. *)
Definition join_row (idxs : list nat) (r : list value) : string :=
  PyStr.join "_" ((λ i, py_str float_repr (r !!! i)) <$> idxs).

(** [df[new_column] = df[columns].astype(str).agg("_".join, axis=1)] *)
Definition create_unique_id (df : DataFrame) (cols : list string)
    (new_column : string) : result DataFrame :=
  idxs ← select df cols;
  Ok (set_col df new_column ((λ r, VStr (join_row idxs r)) <$> rows df)).

(** [df[column].astype(str).str.split(separator, expand=True)] for a
    separator of one character, which pandas reads literally: the pieces of
    every row, and the number of columns of the expanded table. *)
Definition split_data (vs : list value) (separator : ascii)
  : list (list string) :=
  (λ v, PyStr.split (String separator "") (py_str float_repr v)) <$> vs.

Definition split_width (pieces : list (list string)) : nat :=
  max_list (length <$> pieces).

(** [split_data[i]] on one row: [None] where the row has fewer pieces. *)
Definition piece_cell (i : nat) (pieces : list string) : value :=
  match pieces !! i with
  | Some s => VStr s
  | None => VNone
  end.

(** The loop [for i, new_col in enumerate(new_columns)], from [i] on. *)
Fixpoint assign_pieces (pieces : list (list string)) (i : nat)
    (new_columns : list string) (df : DataFrame) : DataFrame :=
  match new_columns with
  | [] => df
  | new_col :: rest =>
      let df :=
        if decide (i < split_width pieces)%nat
        then set_col df new_col (piece_cell i <$> pieces)
        else set_col_scalar df new_col VNone in
      assign_pieces pieces (S i) rest df
  end.

Definition split_column (df : DataFrame) (column : string)
    (separator : ascii) (new_columns : list string) : result DataFrame :=
  vs ← get_series df column;
  Ok (assign_pieces (split_data vs separator) 0 new_columns df).

(** [series.map(mapping_dict)] on one cell, for a dict from texts to
    texts: the image of a text that is a key, nan for any other cell. *)
Definition map_cell (mapping_dict : gmap string string) (v : value) : value :=
  match v with
  | VStr s =>
      match mapping_dict !! s with
      | Some t => VStr t
      | None => VFloat NaN
      end
  | _ => VFloat NaN
  end.

(** [a.fillna(b)] on one cell. *)
Definition fillna_cell (a b : value) : value :=
  if notna a then a else b.

(** [df[column] = df[column].map(mapping_dict).fillna(df[column])] *)
Definition map_values (df : DataFrame) (column : string)
    (mapping_dict : gmap string string) : result DataFrame :=
  vs ← get_col df column;
  Ok (set_col df column
        (zip_with fillna_cell (map_cell mapping_dict <$> vs) vs)).

(** A mapping that has nothing left to do on its own images: no image is
    a key with another image. *)
Definition settled (m : gmap string string) : Prop :=
  ∀ k s t, m !! k = Some s → m !! s = Some t → t = s.

(** The text [convert_to_numeric] hands to [pd.to_numeric]:
    [astype(str)], commas removed, then [strip()]. *)
Definition numeric_text (v : value) : string :=
  PyStr.strip (PyStr.replace "," "" (py_str float_repr v)).

(** One turn of the loop of [convert_to_numeric]. *)
Definition convert_col (df : DataFrame) (col : string) : result DataFrame :=
  vs ← get_series df col;
  Ok (set_col df col (to_numeric (numeric_text <$> vs))).

Fixpoint convert_to_numeric (df : DataFrame) (cols : list string)
  : result DataFrame :=
  match cols with
  | [] => Ok df
  | col :: cols' => df' ← convert_col df col; convert_to_numeric df' cols'
  end.

(** The cells of one row that stay when the labels in [cols] are
    dropped. *)
Fixpoint drop_cells (labels cols : list string) (r : list value)
  : list value :=
  match labels, r with
  | c :: labels', v :: r' =>
      if bool_decide (c ∈ cols) then drop_cells labels' cols r'
      else v :: drop_cells labels' cols r'
  | _, _ => []
  end.

(** [df.drop(columns=columns, errors="ignore")]: every column whose label
    is listed goes, a listed label that is no column is passed over. *)
Definition drop_columns (df : DataFrame) (cols : list string) : DataFrame :=
  mkDF (filter (λ c, c ∉ cols) (columns df))
       (drop_cells (columns df) cols <$> rows df).

(** What [pd.to_numeric] makes of a text: nan when the text is no
    literal, else its number, an integer staying one only in a column of
    integers. *)
Definition coerced (p : option Literal.parsed) (v : value) : Prop :=
  match p with
  | None => v = VFloat NaN
  | Some (Literal.PInt z) => v = VInt z ∨ v = VFloat (Num.of_Z z)
  | Some (Literal.PFloat x) => v = VFloat x
  end.

End data_utils.

End DataUtils.

(** ** config/projects/wsl_config.py *)

Module WslConfig.

Definition SEASON_COL_MAP : gmap string string :=
  list_to_map [
    ("Rk", "Rank");
    ("Squad", "Club");
    ("MP", "Matches");
    ("W", "Wins");
    ("D", "Draws");
    ("L", "Losses");
    ("GF", "Goals_For");
    ("GA", "Goals_Against");
    ("GD", "Goal_Difference");
    ("Pts", "Points");
    ("xG", "Expected_Goals");
    ("xGA", "Expected_Goals_Allowed");
    ("xGD", "Expected_Goals_Difference");
    ("xGD/90", "Expected_Goals_Difference_Per_90_Mins");
    ("Pts/MP", "Points_Per_Match");
    ("Attendance", "Attendance");
    ("Top Team Scorer", "Top_Scorer");
    ("Goalkeeper", "Goalkeeper")
  ].

Definition NATIONALITY_COL_MAP : gmap string string :=
  list_to_map [
    ("Rk", "Rank");
    ("Nation", "Nationality");
    ("# Players", "Num_Players");
    ("Min", "Minutes_Played");
    ("List", "List_of_Players")
  ].

Definition CLUB_NAME_MAP : gmap string string :=
  list_to_map [
    ("Tottenham_Hotspur", "Tottenham");
    ("West_Ham_United", "West_Ham");
    ("Manchester_United", "Manchester_United");
    ("Brighton_&_Hove_Albion", "Brighton")
  ].

(** The list as Python reads it: the literals ['Belgium'] and ['Norway']
    on lines 57-58 have no comma between them and are one string. *)
Definition EURO_COUNTRIES : list string := [
  "England";
  "Wales";
  "Scotland";
  "Republic_of_Ireland";
  "Netherlands";
  "Germany";
  "Sweden";
  "Northern_Ireland";
  "Belgium" +:+ "Norway";
  "Denmark";
  "Switzerland";
  "Austria";
  "Finland";
  "France";
  "Iceland";
  "Portugal";
  "Poland";
  "Spain";
  "Czech_Republic";
  "Greece";
  "Italy";
  "Russia";
  "Slovenia";
  "Serbia";
  "Hungary"
].

(** As Python reads it: the last two literals, on lines 85-86, have no
    comma between them and are one string. *)
Definition WSL_DROP_COLUMNS : list string := [
  "Notes";
  "Goalkeeper";
  "Expected_Goals";
  "Expected_Goals_Allowed";
  "Expected_Goals_Difference";
  "Expected_Goals_Difference_Per_90_Mins" +:+ "Top_Scorer"
].

Definition NATIONALITY_DROP_COLUMNS : list string := [
  "List_of_Players";
  "euro_flag"
].

End WslConfig.

(** ** src/wsl_utils.py *)

Module WslUtils.
Import DataUtils WslConfig.

(** A row handed to a function by [df.apply(f, axis=1)]: the cells of the
    row under their labels. *)
Definition row_dict (cols : list string) (r : list value)
  : gmap string value :=
  list_to_map (zip cols r).

(** [row[label]] *)
Definition field (row : gmap string value) (label : string) : result value :=
  match row !! label with
  | Some v => Ok v
  | None => Raise (KeyError label)
  end.

Definition nationality_group (row : gmap string value) : result string :=
  nationality ← field row "Nationality";
  english ← eq_str nationality "England";
  if english : bool then Ok "English"
  else
    euro_flag ← field row "euro_flag";
    european ← eq_int euro_flag 1;
    if european : bool then Ok "European (excl. Eng)"
    else Ok "Non-European".

(** [f'{start_year}_{end_year}'] *)
Definition season_label (start_year end_year : Z) : string :=
  pretty start_year +:+ "_" +:+ pretty end_year.

(** [f'Skipped cleaning for {start_year}_{end_year} (empty or missing)'] *)
Definition skip_notice (start_year end_year : Z) : string :=
  "Skipped cleaning for " +:+ season_label start_year end_year
  +:+ " (empty or missing)".

Section wsl_utils.
Variable float_repr : Qc → string.

(** The name part of the top-scorer text: every comma-separated name is
    stripped and has its spaces replaced, the names are joined again. *)
Definition scorer_names (x : string) : string :=
  PyStr.join ", "
    ((λ n, PyStr.replace " " "_" (PyStr.strip n)) <$> PyStr.split "," x).

(** The lambda applied to [Top_Scorer_Name]. *)
Definition scorer_name_cell (x : value) : result value :=
  if notna x then
    match x with
    | VStr s => Ok (VStr (scorer_names s))
    | _ => Raise AttributeError
    end
  else Ok x.

(** [df['Top_Scorer'].str.split(' - ', n=1, expand=True)]: the pieces of
    every row ([None] for a cell that is no text), and the number of
    columns of the expanded table. *)
Definition scorer_pieces (vs : list value) : list (option (list string)) :=
  (λ v, match v with
        | VStr s => Some (PyStr.split1 " - " s)
        | _ => None
        end) <$> vs.

Definition pieces_width (ps : list (option (list string))) : nat :=
  foldr (λ p w, Nat.max (from_option length 1%nat p) w) 0%nat ps.

Definition piece0 (v : value) (p : option (list string)) : value :=
  match p with
  | Some (a :: _) => VStr a
  | _ => v
  end.

Definition piece1 (v : value) (p : option (list string)) : value :=
  match p with
  | Some (_ :: b :: _) => VStr b
  | Some _ => VNone
  | None => v
  end.

(** Step 5 of [process_wsl_data]. *)
Definition top_scorer (df : DataFrame) (season : string) : io DataFrame :=
  if has_col df "Top_Scorer" then
    lift (
      vs ← get_series df "Top_Scorer";
      vs ← str_accessor vs;
      let ps := scorer_pieces vs in
      let df := set_col df "Top_Scorer_Name" (zip_with piece0 vs ps) in
      let df :=
        if decide (1 < pieces_width ps)%nat
        then set_col df "Top_Scorer_Goals" (zip_with piece1 vs ps)
        else set_col_scalar df "Top_Scorer_Goals" VNA in
      df ← convert_to_numeric float_repr df ["Top_Scorer_Goals"];
      names ← get_col df "Top_Scorer_Name";
      names ← mapM scorer_name_cell names;
      Ok (set_col df "Top_Scorer_Name" names))
  else
    _ ← print ("No 'Top_Scorer' column found for " +:+ season);
    let df := set_col_scalar df "Top_Scorer_Name" VNA in
    mret (set_col_scalar df "Top_Scorer_Goals" VNA).

Definition process_wsl_data (df : option DataFrame)
    (start_year end_year : Z) : io (option DataFrame) :=
  let season := season_label start_year end_year in
  match df with
  | None =>
      _ ← print (skip_notice start_year end_year);
      mret None
  | Some df =>
      if empty df then
        _ ← print (skip_notice start_year end_year);
        mret (Some df)
      else
        _ ← print ("Cleaning WSL for season " +:+ season +:+ "...");
        (* 1. Remove unwanted string parts *)
        df ← lift (remove_string_parts float_repr df "Squad" "Club Crest ");
        (* 2. Normalise club names *)
        df ← lift (
          vs ← get_series df "Squad";
          vs ← str_accessor vs;
          Ok (set_col df "Squad"
                (str_method (λ s, VStr (PyStr.replace " " "_" s)) <$> vs)));
        (* 3. Add season + unique ID *)
        let df := set_col_scalar df "season" (VStr season) in
        df ← lift (create_unique_id float_repr df ["Squad"; "season"] "unique_ID");
        (* 4. Standardise column names *)
        let df := convert_column_names df SEASON_COL_MAP in
        (* 5. Handle top_scorer safely *)
        df ← top_scorer df season;
        (* 6. Convert numeric columns *)
        df ← lift (convert_to_numeric float_repr df ["Attendance"]);
        _ ← print ("Finished cleaning " +:+ season +:+ " data.");
        mret (Some df)
  end.

(** [.str.split(' ', n=1).str[1]] on one cell. *)
Definition second_piece (s : string) : value :=
  match PyStr.split1 " " s with
  | [_; rest] => VStr rest
  | _ => VFloat NaN
  end.

(** Step 6 of [process_nationality_data]: [euro_flag], then [group]. *)
Definition euro_flag_cell (x : value) : result value :=
  b ← in_list x EURO_COUNTRIES;
  Ok (VInt (if b : bool then 1 else 0)).

Definition nationality_groups (df : DataFrame) : result DataFrame :=
  vs ← get_col df "Nationality";
  flags ← mapM euro_flag_cell vs;
  let df := set_col df "euro_flag" flags in
  groups ← mapM (λ r, g ← nationality_group (row_dict (columns df) r);
                      Ok (VStr g)) (rows df);
  Ok (set_col df "group" groups).

Definition process_nationality_data (df : option DataFrame)
    (start_year end_year : Z) : io (option DataFrame) :=
  let season := season_label start_year end_year in
  match df with
  | None =>
      _ ← print (skip_notice start_year end_year);
      mret None
  | Some df =>
      if empty df then
        _ ← print (skip_notice start_year end_year);
        mret (Some df)
      else
        _ ← print ("Cleaning nationality season data for " +:+ season +:+ "...");
        (* 1. Convert column to string *)
        df ← lift (
          vs ← get_col df "Nation";
          Ok (set_col df "Nation" ((λ v, VStr (py_str float_repr v)) <$> vs)));
        (* 2. Clean country names *)
        df ← lift (
          vs ← get_series df "Nation";
          vs ← str_accessor vs;
          vs ← str_accessor (str_method second_piece <$> vs);
          Ok (set_col df "Nation"
                (str_method (λ s, VStr (PyStr.replace " " "_" s)) <$> vs)));
        (* 3. Standardise column names *)
        let df := convert_column_names df NATIONALITY_COL_MAP in
        (* 4. Add season + unique ID *)
        let df := set_col_scalar df "season" (VStr season) in
        df ← lift (create_unique_id float_repr df ["season"; "Rank"] "Season_Rank");
        (* 5. Convert numeric columns *)
        df ← lift (convert_to_numeric float_repr df ["Num_Players"; "Minutes_Played"]);
        (* 6. Create nationality groups *)
        df ← lift (nationality_groups df);
        _ ← print ("Finished cleaning nationality data for " +:+ season +:+ ".");
        mret (Some df)
  end.

End wsl_utils.

End WslUtils.

(** ** src/modelling.py: the repository's own logic in [fit_wsl_linear_model]

    The calls into scikit-learn ([LinearRegression.fit], [predict] and the
    metric functions) are library code and are not embedded.  Embedded are
    the temporal split (lines 41-42), the per-club extrapolation that builds
    [future_rows] (lines 58-145) and the [PctWithin*] entries of
    [compute_metrics] (lines 156-159). *)

Module Modelling.
Import Num.

(** *** Train/test split *)

(** One cell of [model_df['Season']] compared with [split_year]: a null
    compares false whatever the comparison is, a text cannot be ordered
    against an integer. *)
Definition season_lt (v : value) (split_year : Z) : result bool :=
  match v with
  | VInt z => Ok (bool_decide (z < split_year))
  | VFloat x => Ok (ltb x (of_Z split_year))
  | VBool b => Ok (bool_decide ((if b then 1 else 0) < split_year))
  | VNone | VNA => Ok false
  | VStr _ => Raise TypeError
  end.

Definition season_ge (v : value) (split_year : Z) : result bool :=
  match v with
  | VInt z => Ok (bool_decide (split_year ≤ z))
  | VFloat x => Ok (geb x (of_Z split_year))
  | VBool b => Ok (bool_decide (split_year ≤ (if b then 1 else 0)))
  | VNone | VNA => Ok false
  | VStr _ => Raise TypeError
  end.

(** A Season cell that is not null. *)
Definition non_null (v : value) : Prop := notna v = true.

(** [df[mask]]: the rows whose mask entry is true, in table order. *)
Fixpoint mask_rows {A} (mask : list bool) (rs : list A) : list A :=
  match mask, rs with
  | b :: mask', r :: rs' =>
      if b then r :: mask_rows mask' rs' else mask_rows mask' rs'
  | _, _ => []
  end.

(** [model_df['Season'] < split_year] and [model_df['Season'] >= split_year] *)
Definition train_mask (model_df : DataFrame) (split_year : Z)
  : result (list bool) :=
  season ← get_col model_df "Season";
  mapM (λ v, season_lt v split_year) season.

Definition test_mask (model_df : DataFrame) (split_year : Z)
  : result (list bool) :=
  season ← get_col model_df "Season";
  mapM (λ v, season_ge v split_year) season.

(** The comparison of the Season cell of one row comes out true. *)
Definition season_below (model_df : DataFrame) (split_year : Z)
    (r : list value) : Prop :=
  row_get (columns model_df) r "Season" ≫= (λ v, season_lt v split_year)
  = Ok true.

Definition season_from (model_df : DataFrame) (split_year : Z)
    (r : list value) : Prop :=
  row_get (columns model_df) r "Season" ≫= (λ v, season_ge v split_year)
  = Ok true.

Global Instance season_below_dec model_df split_year r :
  Decision (season_below model_df split_year r).
Proof. unfold season_below. apply _. Defined.

Global Instance season_from_dec model_df split_year r :
  Decision (season_from model_df split_year r).
Proof. unfold season_from. apply _. Defined.

(** [train_df = model_df[model_df['Season'] < split_year].copy()] *)
Definition train_df (model_df : DataFrame) (split_year : Z)
  : result DataFrame :=
  mask ← train_mask model_df split_year;
  Ok (mkDF (columns model_df) (mask_rows mask (rows model_df))).

(** [test_df = model_df[model_df['Season'] >= split_year].copy()] *)
Definition test_df (model_df : DataFrame) (split_year : Z)
  : result DataFrame :=
  mask ← test_mask model_df split_year;
  Ok (mkDF (columns model_df) (mask_rows mask (rows model_df))).

(** *** Series operations of the extrapolation *)

(** [ffill]: a nan takes the last value before it. *)
Fixpoint ffill (prev : num) (xs : list num) : list num :=
  match xs with
  | [] => []
  | x :: xs' =>
      let y := if is_nan x then prev else x in
      y :: ffill y xs'
  end.

(** [data / data.shift(1) - 1] *)
Definition growth_rates (xs : list num) : list num :=
  match xs with
  | [] => []
  | _ :: xs' => NaN :: zip_with (λ prev cur, sub (div cur prev) one) xs xs'
  end.

(** [series.pct_change()].  pandas before 3.0 forward-fills the nulls of the
    series first ([pad_nulls = true]); pandas 3.0 does not. *)
Definition pct_change (pad_nulls : bool) (xs : list num) : list num :=
  growth_rates (if pad_nulls then ffill NaN xs else xs).

Fixpoint insert_sorted (x : num) (l : list num) : list num :=
  match l with
  | [] => [x]
  | y :: l' => if leb x y then x :: l else y :: insert_sorted x l'
  end.

Definition sort_nums (l : list num) : list num :=
  foldr insert_sorted [] l.

(** [series.median()]: nulls are skipped; the middle value of the sorted
    rest, or the mean of the two middle values; nan when nothing is left. *)
Definition median (xs : list num) : num :=
  let s := sort_nums (filter (λ x, is_nan x = false) xs) in
  let n := length s in
  match n with
  | O => NaN
  | _ =>
      if Nat.even n
      then div (add (s !!! (n / 2 - 1)%nat) (s !!! (n / 2)%nat)) (of_Z 2)
      else s !!! (n / 2)%nat
  end.

(** *** Future forecasting (pattern-based per club) *)

(** An integer cell, as [range] needs it. *)
Definition cell_int (v : value) : result Z :=
  match v with
  | VInt z => Ok z
  | VBool b => Ok (if b then 1 else 0)
  | _ => Raise TypeError
  end.

(** [last_year = model_df['Season'].max()], which [range] then takes: the
    column has to be a non-empty column of integers. *)
Definition last_year (model_df : DataFrame) : result Z :=
  season ← get_col model_df "Season";
  years ← mapM cell_int season;
  match years with
  | [] => Raise TypeError
  | y :: ys => Ok (foldr Z.max y ys)
  end.

(** [list(range(last_year + 1, last_year + 1 + forecast_years))] *)
Definition future_years_list (last_year forecast_years : Z) : list Z :=
  seqZ (last_year + 1) forecast_years.

(** [[c for c in model_df.columns if c.startswith('Club_')]] *)
Definition club_cols (model_df : DataFrame) : list string :=
  filter (λ c, PyStr.startswith "Club_" c = true) (columns model_df).

(** [[c.replace('Club_', '') for c in club_cols]] *)
Definition clubs (model_df : DataFrame) : list string :=
  PyStr.replace "Club_" "" <$> club_cols model_df.

(** A list in ascending order for a comparison. *)
Definition ascending {A} (R : A → A → Prop) (l : list A) : Prop :=
  ∀ i j a b, (i < j)%nat → l !! i = Some a → l !! j = Some b → R a b.

(** Rows sorted by their integer key, ties in table order. *)
Fixpoint insert_row (k : Z) (r : list value) (l : list (Z * list value))
  : list (Z * list value) :=
  match l with
  | [] => [(k, r)]
  | (k', r') :: l' =>
      if bool_decide (k < k') then (k, r) :: l
      else (k', r') :: insert_row k r l'
  end.

Definition sort_rows (l : list (Z * list value)) : list (list value) :=
  snd <$> foldr (λ kr acc, insert_row kr.1 kr.2 acc) [] l.

(** One cell of [model_df[c] == n]: equality of numbers, false for a text
    and for a null. *)
Definition col_eq_int (v : value) (n : Z) : bool :=
  match v with
  | VInt z => bool_decide (z = n)
  | VFloat x => eqb x (of_Z n)
  | VBool b => bool_decide ((if b then 1 else 0) = n)
  | VStr _ | VNone | VNA => false
  end.

(** The dummy cell of the club is 1 in the row. *)
Definition club_row (model_df : DataFrame) (club : string)
    (r : list value) : Prop :=
  row_get (columns model_df) r ("Club_" +:+ club)
    ≫= (λ v, Ok (col_eq_int v 1)) = Ok true.

Global Instance club_row_dec model_df club r :
  Decision (club_row model_df club r).
Proof. unfold club_row. apply _. Defined.

(** [cdf = model_df[model_df[f'Club_{club}'] == 1].sort_values('Season')] *)
Definition cdf (model_df : DataFrame) (club : string) : result DataFrame :=
  flags ← get_col model_df ("Club_" +:+ club);
  let mask := (λ v, col_eq_int v 1) <$> flags in
  let kept := mask_rows mask (rows model_df) in
  keys ← mapM (λ r, v ← row_get (columns model_df) r "Season"; cell_int v) kept;
  Ok (mkDF (columns model_df) (sort_rows (zip keys kept))).

(** [series.iloc[-1]] *)
Definition iloc_last {A} (l : list A) : result A :=
  match list.last l with
  | Some x => Ok x
  | None => Raise IndexError
  end.

(** The loop [for c in club_cols: row[c] = 1 if c == f'Club_{club}' else 0]. *)
Definition set_dummies (cols : list string) (club : string)
    (row : gmap string value) : gmap string value :=
  foldl (λ row c,
           <[c := VInt (if bool_decide (c = "Club_" +:+ club) then 1 else 0)]> row)
        row cols.

(** The loop [for col in feature_cols: row[col] = np.nan]. *)
Definition null_features (feature_cols : list string)
    (row : gmap string value) : gmap string value :=
  foldl (λ row col, <[col := VFloat NaN]> row) row feature_cols.

(** The loop [for col in feature_cols: row[col] = last_row[col]]. *)
Fixpoint carry_features (cols : list string) (last_row : list value)
    (feature_cols : list string) (row : gmap string value)
  : result (gmap string value) :=
  match feature_cols with
  | [] => Ok row
  | col :: rest =>
      v ← row_get cols last_row col;
      carry_features cols last_row rest (<[col := v]> row)
  end.

Section future.
Variable pad_nulls : bool.
Variable model_df : DataFrame.
Variable feature_cols : list string.
Variable target_col : string.

(** One turn of the loop of lines 78-99, for a club that appears less than
    twice. *)
Definition sparse_row (club : string) (c : DataFrame) (year : Z)
  : result (gmap string value) :=
  let row : gmap string value :=
    <["Club" := VStr club]> {["Season" := VInt year]} in
  let row := set_dummies (club_cols model_df) club row in
  capacity ←
    (if has_col c "Capacity"
     then vs ← get_col c "Capacity"; iloc_last vs
     else Ok (VFloat NaN));
  let row := <["Capacity" := capacity]> row in
  let row := <["Predicted_Attendance" := VFloat NaN]> row in
  let row := <[target_col := VFloat NaN]> row in
  Ok (null_features feature_cols row).

(** One turn of the loop of lines 116-143, after [last_att] has been
    multiplied. *)
Definition regular_row (club : string) (cols : list string)
    (last_row : list value) (last_att : num) (year : Z)
  : result (gmap string value) :=
  let row : gmap string value := {["Season" := VInt year]} in
  row ← carry_features cols last_row feature_cols row;
  let row := set_dummies (club_cols model_df) club row in
  capacity ← row_get cols last_row "Capacity";
  let row := <["Capacity" := capacity]> row in
  let row := <["Club" := VStr club]> row in
  let row := <["Predicted_Attendance" := VFloat last_att]> row in
  Ok (<[target_col := VFloat NaN]> row).

(** The loop of lines 116-143; [last_att] is the running value, [cols]
    and [last_row] are the labels and the cells of [cdf.iloc[-1]]. *)
Fixpoint forecast_loop (club : string) (cols : list string)
    (last_row : list value) (median_growth last_att : num) (years : list Z)
  : result (list (gmap string value)) :=
  match years with
  | [] => Ok []
  | year :: years' =>
      let last_att := mul last_att (add one median_growth) in
      row ← regular_row club cols last_row last_att year;
      rest ← forecast_loop club cols last_row median_growth last_att years';
      Ok (row :: rest)
  end.

(** The body of [for club in clubs], lines 70-143. *)
Definition club_rows (years : list Z) (club : string)
  : result (list (gmap string value)) :=
  c ← cdf model_df club;
  if decide (length (rows c) < 2)%nat then
    mapM (sparse_row club c) years
  else
    (* cdf['growth'] = cdf[target_col].pct_change() *)
    targets ← get_col c target_col;
    targets ← mapM to_num targets;
    let c := set_col c "growth" (VFloat <$> pct_change pad_nulls targets) in
    (* median_growth = cdf['growth'].median() *)
    growth ← get_col c "growth";
    growth ← mapM to_num growth;
    let median_growth := median growth in
    (* last_att = cdf[target_col].iloc[-1] *)
    targets ← get_col c target_col;
    last_att ← iloc_last targets;
    last_att ← to_num last_att;
    (* last_row = cdf.iloc[-1] *)
    last_row ← iloc_last (rows c);
    forecast_loop club (columns c) last_row median_growth last_att years.

(** Lines 59-145: [None] when no forecast is asked for, else the rows
    from which [future_df] is built, club after club. *)
Definition future_rows (forecast_years : Z)
  : result (option (list (gmap string value))) :=
  if bool_decide (0 < forecast_years) then
    y ← last_year model_df;
    let years := future_years_list y forecast_years in
    blocks ← mapM (club_rows years) (clubs model_df);
    Ok (Some (concat blocks))
  else Ok None.

End future.

(** [feature_cols = [c for c in feature_cols if c != 'Season']] *)
Definition resolve_features (feature_cols : list string) : list string :=
  filter (λ c, c ≠ "Season") feature_cols.

End Modelling.

(** ** Sample tables *)

Module Samples.

(** The sample tables hold no finite float, so this stand-in for the
    printing of floats is never consulted on them. *)
Definition float_repr (q : Qc) : string := "".

(** Two rows of a raw season table. *)
Definition season_raw : DataFrame :=
  mkDF ["Rk"; "Squad"; "Attendance"; "Top Team Scorer"]
    [[VInt 1; VStr "Club Crest Manchester City"; VStr "1,234";
      VStr "Sam Kerr, Beth Mead - 12"];
     [VInt 2; VStr "Club Crest Arsenal"; VStr "N/A"; VStr "Vivianne Miedema"]].

(** A season table before [create_unique_id]. *)
Definition season_keyed : DataFrame :=
  mkDF ["Squad"; "season"]
    [[VStr "Arsenal"; VStr "2020_2021"];
     [VStr "Chelsea"; VStr "2020_2021"]].

(** A nationality table before [create_unique_id]: the rank is a number
    in the first row and is missing in the second. *)
Definition rank_keyed : DataFrame :=
  mkDF ["season"; "Rank"]
    [[VStr "2020_2021"; VInt 1];
     [VStr "2020_2021"; VNone]].

(** Texts with whitespace around a number: a tab before and a line end
    after 12; a no-break space (U+00A0, the bytes 194 160) before and
    after 1,234; an ideographic space (U+3000, the bytes 227 128 128)
    before and a line separator (U+2028, the bytes 226 128 168) after 7. *)
Definition tab_12_newline : string :=
  String "009" ("12" +:+ String "010" "").

Definition nbsp : string := String "194" (String "160" "").

Definition nbsp_padded_1234 : string := nbsp +:+ "1,234" +:+ nbsp.

Definition wide_padded_7 : string :=
  String "227" (String "128" (String "128" "7"))
  +:+ String "226" (String "128" (String "168" "")).

(** A raw nationality table. *)
Definition nationality_raw : DataFrame :=
  mkDF ["Rk"; "Nation"; "# Players"; "Min"; "List"]
    [[VInt 1; VStr "eng England"; VInt 10; VStr "12,345"; VStr "a"];
     [VInt 2; VStr "be Belgium"; VInt 2; VStr "1,000"; VStr "b"];
     [VInt 3; VStr "no Norway"; VInt 1; VStr "900"; VStr "c"];
     [VInt 4; VStr "us United States"; VInt 1; VStr "N/A"; VStr "d"];
     [VInt 5; VStr "fr France"; VInt 1; VStr ""; VStr "e"]].

(** The raw nationality table after cleaning, for the season 2020/2021. *)
Definition nationality_cleaned : DataFrame :=
  match res (WslUtils.process_nationality_data float_repr
               (Some nationality_raw) 2020 2021) with
  | Ok (Some df) => df
  | _ => mkDF [] []
  end.

(** A model input table: club A in three seasons with the attendances
    30000, 33000 and 36000, club B in one season. *)
Definition attendance_df : DataFrame :=
  mkDF ["Season"; "Club"; "Club_A"; "Club_B"; "Attendance"; "Capacity"]
    [[VInt 2022; VStr "A"; VInt 1; VInt 0; VInt 33000; VInt 60000];
     [VInt 2021; VStr "A"; VInt 1; VInt 0; VInt 30000; VInt 60000];
     [VInt 2023; VStr "B"; VInt 0; VInt 1; VInt 1000; VInt 5000];
     [VInt 2023; VStr "A"; VInt 1; VInt 0; VInt 36000; VInt 60000]].

(** A model input table, not in season order: club A in four seasons
    with the attendances 1000, 1500, 1200 and 1320 (growth rates 1/2, -1/5
    and 1/10), club B in one season. *)
Definition growth_df : DataFrame :=
  mkDF ["Season"; "Club"; "Club_A"; "Club_B"; "Attendance"; "Capacity"]
    [[VInt 2022; VStr "A"; VInt 1; VInt 0; VInt 1200; VInt 5000];
     [VInt 2020; VStr "A"; VInt 1; VInt 0; VInt 1000; VInt 5000];
     [VInt 2023; VStr "B"; VInt 0; VInt 1; VInt 800; VInt 3000];
     [VInt 2023; VStr "A"; VInt 1; VInt 0; VInt 1320; VInt 5000];
     [VInt 2021; VStr "A"; VInt 1; VInt 0; VInt 1500; VInt 5000]].

(** A model input table in which the dummy column of club B is present but
    no row belongs to club B. *)
Definition absent_club_df : DataFrame :=
  mkDF ["Season"; "Club_A"; "Club_B"; "Attendance"; "Capacity"]
    [[VInt 2022; VInt 1; VInt 0; VInt 33000; VInt 60000];
     [VInt 2023; VInt 1; VInt 0; VInt 36000; VInt 60000]].

End Samples.
(** ** Accuracy metrics computed by the repository itself
    ([compute_metrics], modelling.py lines 148-160)

    The entries taken from scikit-learn (MAE, MSE, RMSE, R2,
    ExplainedVariance, MaxError) are library calls and are not part of the
    embedding; the four [PctWithin*] entries are numpy expressions of the
    source and are embedded below.  [y_true] and [y_pred] are the target
    and prediction columns of one partition, row by row. *)

Module Metrics.
Import Num.

(** [np.mean] of a boolean array: the fraction of [True]; [nan] for an
    empty array. *)
Definition mean_bool (bs : list bool) : num :=
  div (of_Z (Z.of_nat (length (filter (λ b, b = true) bs))))
      (of_Z (Z.of_nat (length bs))).

(** [(y_true - y_pred) / y_true] for one row. *)
Definition rel_error (t p : num) : num := div (sub t p) t.

(** [np.abs((y_true - y_pred) / y_true) <= tol] for one row. *)
Definition within_rel (tol : Qc) (t p : num) : bool :=
  leb (abs (rel_error t p)) (Fin tol).

(** [np.abs(y_true - y_pred) <= tol] for one row. *)
Definition within_abs (tol : Qc) (t p : num) : bool :=
  leb (abs (sub t p)) (Fin tol).

Definition PctWithin10pct (y_true y_pred : list num) : num :=
  mean_bool (zip_with (within_rel (Q2Qc (10 # 100))) y_true y_pred).

Definition PctWithin15pct (y_true y_pred : list num) : num :=
  mean_bool (zip_with (within_rel (Q2Qc (15 # 100))) y_true y_pred).

Definition PctWithin500Attendees (y_true y_pred : list num) : num :=
  mean_bool (zip_with (within_abs (Q2Qc 500)) y_true y_pred).

Definition PctWithin1000Attendees (y_true y_pred : list num) : num :=
  mean_bool (zip_with (within_abs (Q2Qc 1000)) y_true y_pred).

End Metrics.
(** *** Arithmetic facts *)

Module NumFacts.
Import Num.

Lemma sgn_Qred (q : Q) : Z.sgn (Qnum (Qred q)) = Z.sgn (Qnum q).
Proof.
  pose proof (Qred_correct q) as H. unfold Qeq in H.
  destruct (Qred q) as [n d], q as [n' d']; simpl in *.
  destruct n, n'; simpl; try reflexivity; lia.
Qed.

Lemma sgn_mul (a b : Qc) : sgn (a * b)%Qc = sgn a * sgn b.
Proof.
  unfold sgn, Qcmult, Q2Qc; simpl.
  rewrite sgn_Qred. simpl. apply Z.sgn_mul.
Qed.

Lemma sgn_opp (a : Qc) : sgn (- a)%Qc = - sgn a.
Proof.
  unfold sgn, Qcopp, Q2Qc; simpl.
  rewrite sgn_Qred. simpl. apply Z.sgn_opp.
Qed.

Lemma sgn_zero_iff (a : Qc) : sgn a = 0 ↔ a = Q2Qc 0.
Proof.
  unfold sgn. split.
  - intros H. apply Qc_is_canon. unfold Qeq. simpl.
    destruct (Qnum (this a)); simpl in *; [reflexivity|discriminate..].
  - intros ->. reflexivity.
Qed.

Lemma sgn_cases (a : Qc) : sgn a = -1 ∨ sgn a = 0 ∨ sgn a = 1.
Proof. unfold sgn. destruct (Qnum (this a)); simpl; auto. Qed.

Lemma sgn_neg_iff (a : Qc) : sgn a = -1 ↔ (a < Q2Qc 0)%Qc.
Proof.
  unfold sgn, Qclt, Qlt. simpl. rewrite Z.mul_1_r.
  destruct (Qnum (this a)); simpl; split; intros; try lia; try discriminate.
Qed.

Lemma sgn_nonneg_iff (a : Qc) : sgn a ≠ -1 ↔ (Q2Qc 0 ≤ a)%Qc.
Proof.
  unfold sgn, Qcle, Qle. simpl. rewrite Z.mul_1_r.
  destruct (Qnum (this a)); simpl; split; intros; try lia; try discriminate.
Qed.

Lemma mul_comm (x y : num) : mul x y = mul y x.
Proof.
  destruct x, y; simpl; try reflexivity. f_equal. apply Qcmult_comm.
Qed.

Ltac sgn_all :=
  repeat match goal with
  | q : Qc |- _ =>
      lazymatch goal with
      | H : sgn q = _ |- _ => fail
      | _ => destruct (sgn_cases q) as [?|[?|?]]
      end
  end.

Ltac sgn_rewrite :=
  repeat (match goal with H : sgn _ = _ |- _ => rewrite H end; simpl).

Lemma mul_assoc (x y z : num) : mul x (mul y z) = mul (mul x y) z.
Proof.
  destruct x as [a| | |], y as [b| | |], z as [c| | |]; simpl;
    rewrite ?sgn_mul; try reflexivity;
    try (f_equal; apply Qcmult_assoc);
    sgn_all; sgn_rewrite; reflexivity.
Qed.

Lemma mul_one_r (x : num) : mul x one = x.
Proof.
  destruct x; simpl; try reflexivity. f_equal. apply Qcmult_1_r.
Qed.

(** Multiplying [n] times by [x] is multiplying by [x ** n]. *)
Lemma iter_mul_pow (v x : num) (n : nat) :
  Nat.iter n (λ a, mul a x) v = mul v (pow x n).
Proof.
  induction n as [|n IH]; simpl.
  - symmetry. apply mul_one_r.
  - rewrite IH, <- !mul_assoc. f_equal. apply mul_comm.
Qed.

(** A zero divisor never gives a finite quotient. *)
Lemma div_zero_not_finite (x : num) : is_finite (div x zero) = false.
Proof.
  destruct x as [a| | |]; try reflexivity.
  unfold div, zero. destruct (decide (Q2Qc 0 = Q2Qc 0)) as [_|H]; [|by destruct H].
  by destruct (sgn a).
Qed.

(** A value that is not finite is within no finite tolerance. *)
Lemma abs_leb_not_finite (x : num) (t : Qc) :
  is_finite x = false → leb (abs x) (Fin t) = false.
Proof. by destruct x. Qed.

(** *** The order of the comparisons *)

Lemma leb_total (x y : num) :
  is_nan x = false → is_nan y = false → leb x y = false → leb y x = true.
Proof.
  destruct x as [a| | |], y as [b| | |]; simpl; try done.
  intros _ _ H. apply bool_decide_eq_false in H.
  apply bool_decide_eq_true. apply Qclt_le_weak. by apply Qcnot_le_lt.
Qed.

Lemma leb_trans (x y z : num) :
  leb x y = true → leb y z = true → leb x z = true.
Proof.
  destruct x as [a| | |], y as [b| | |], z as [c| | |]; simpl; try done.
  intros H1 H2. apply bool_decide_eq_true in H1, H2.
  apply bool_decide_eq_true. by eapply Qcle_trans.
Qed.

Lemma leb_not_nan (x y : num) :
  leb x y = true → is_nan x = false ∧ is_nan y = false.
Proof. by destruct x, y. Qed.

(** *** Finite values *)

Lemma pow_Fin (a : Qc) (n : nat) : pow (Fin a) n = Fin (a ^ n)%Qc.
Proof.
  induction n as [|n IH]; [done|]. simpl pow. by rewrite IH.
Qed.

(** Compounding a finite value at a finite rate is the product of the
    rationals. *)
Lemma compound_Fin (v m : Qc) (n : nat) :
  mul (Fin v) (pow (add one (Fin m)) n) = Fin (v * (Q2Qc 1 + m) ^ n)%Qc.
Proof. simpl add. by rewrite pow_Fin. Qed.

(** The growth from a finite value that is not zero to a finite value. *)
Lemma growth_Fin (a b : Qc) :
  a ≠ Q2Qc 0 → sub (div (Fin b) (Fin a)) one = Fin (b / a - Q2Qc 1)%Qc.
Proof.
  intros Ha. unfold sub, div. by destruct (decide (a = Q2Qc 0)).
Qed.

End NumFacts.


Module MetricsFacts.
Import Num Metrics.

(** A fraction of a non-empty array is a finite number between 0 and 1. *)
Lemma mean_bool_fraction (bs : list bool) :
  bs ≠ [] →
  ∃ q : Qc, mean_bool bs = Fin q ∧ (Q2Qc 0 ≤ q)%Qc ∧ (q ≤ Q2Qc 1)%Qc.
Proof.
  intros Hne. unfold mean_bool, of_Z, div.
  set (c := Z.of_nat (length (filter (λ b, b = true) bs))).
  set (n := Z.of_nat (length bs)).
  assert (Hc : 0 ≤ c ≤ n).
  { subst c n. pose proof (length_filter (λ b, b = true) bs). lia. }
  assert (Hn : 0 < n).
  { subst n. destruct bs; [done|simpl; lia]. }
  clearbody c n.
  assert (Hnz : Q2Qc (inject_Z n) ≠ Q2Qc 0).
  { intros H. apply (f_equal this) in H. simpl in H.
    assert (Hq : (inject_Z n == 0)%Q) by (rewrite <- (Qred_correct (inject_Z n)), H; reflexivity).
    unfold Qeq in Hq. simpl in Hq. lia. }
  destruct (decide (Q2Qc (inject_Z n) = Q2Qc 0)) as [|_]; [done|].
  eexists. split; [reflexivity|].
  assert (Hpos : (0 < inject_Z n)%Q) by (unfold Qlt; simpl; lia).
  unfold Qcle, Qcdiv, Qcmult, Qcinv, Q2Qc; simpl.
  rewrite !Qred_correct. split.
  - apply Qmult_le_0_compat.
    + unfold Qle; simpl; lia.
    + apply Qlt_le_weak, Qinv_lt_0_compat, Hpos.
  - change (inject_Z c * / inject_Z n <= 1)%Q.
    apply Qle_shift_div_r; [exact Hpos|].
    unfold Qle; simpl; lia.
Qed.

Lemma zip_with_nonempty {A B C} (f : A → B → C) (l : list A) (k : list B) :
  length l = length k → l ≠ [] → zip_with f l k ≠ [].
Proof. by destruct l, k. Qed.

(** A row whose actual value is zero: the ratio is not finite, nothing is
    raised, and the row is within no relative tolerance. *)
Lemma within_rel_zero_actual (tol : Qc) (p : num) :
  is_finite (rel_error zero p) = false ∧ within_rel tol zero p = false.
Proof.
  assert (H : is_finite (rel_error zero p) = false)
    by apply NumFacts.div_zero_not_finite.
  split; [done|]. by apply NumFacts.abs_leb_not_finite.
Qed.

(** C9, as amended: [PctWithin10pct] and [PctWithin15pct] divide by the
    actual value of every row and never raise; for a row whose actual value
    is zero the ratio is infinite or nan, the row counts as not within the
    tolerance, and the metric of a non-empty partition is still a finite
    fraction between 0 and 1. *)
Theorem PctWithin_pct_zero_actual (y_true y_pred : list num) :
  length y_true = length y_pred → y_true ≠ [] →
  (∀ tol p, is_finite (rel_error zero p) = false ∧ within_rel tol zero p = false) ∧
  (∃ q, PctWithin10pct y_true y_pred = Fin q ∧ (Q2Qc 0 ≤ q)%Qc ∧ (q ≤ Q2Qc 1)%Qc) ∧
  (∃ q, PctWithin15pct y_true y_pred = Fin q ∧ (Q2Qc 0 ≤ q)%Qc ∧ (q ≤ Q2Qc 1)%Qc).
Proof.
  intros Hlen Hne. split_and!.
  - intros tol p. apply within_rel_zero_actual.
  - apply mean_bool_fraction. by apply zip_with_nonempty.
  - apply mean_bool_fraction. by apply zip_with_nonempty.
Qed.

Lemma PctWithin_pct_zero_actual_witness :
  (∀ tol p, is_finite (rel_error zero p) = false ∧ within_rel tol zero p = false) ∧
  (∃ q, PctWithin10pct [zero; of_Z 100] [of_Z 5; of_Z 100] = Fin q
        ∧ (Q2Qc 0 ≤ q)%Qc ∧ (q ≤ Q2Qc 1)%Qc) ∧
  (∃ q, PctWithin15pct [zero; of_Z 100] [of_Z 5; of_Z 100] = Fin q
        ∧ (Q2Qc 0 ≤ q)%Qc ∧ (q ≤ Q2Qc 1)%Qc).
Proof.
  apply (PctWithin_pct_zero_actual [zero; of_Z 100] [of_Z 5; of_Z 100]).
  - reflexivity.
  - discriminate.
Defined.

(** C9, as stated, fails: a partition with a row whose actual value is zero
    has the finite metric 1/2, not a non-finite one. *)
Lemma PctWithin_pct_zero_actual_is_finite :
  zero ∈ [zero; of_Z 100] ∧
  is_finite (PctWithin10pct [zero; of_Z 100] [of_Z 5; of_Z 100]) = true ∧
  to_Q (PctWithin10pct [zero; of_Z 100] [of_Z 5; of_Z 100]) = Some (1 # 2)%Q ∧
  to_Q (PctWithin15pct [zero; of_Z 100] [of_Z 5; of_Z 100]) = Some (1 # 2)%Q.
Proof.
  split; [constructor|]. by vm_compute.
Qed.

End MetricsFacts.

(** ** Facts about results, tables and cells *)

Module FrameFacts.

Lemma bind_Ok {A B} (m : result A) (f : A → result B) (b : B) :
  m ≫= f = Ok b ↔ ∃ a, m = Ok a ∧ f a = Ok b.
Proof.
  destruct m as [a|e]; simpl; split.
  - intros H. by exists a.
  - by intros (a' & [= ->] & H).
  - discriminate.
  - by intros (a' & [=] & _).
Qed.

Lemma res_bind_Ok {A B} (m : io A) (f : A → io B) (b : B) :
  res (m ≫= f) = Ok b ↔ ∃ a, res m = Ok a ∧ res (f a) = Ok b.
Proof.
  unfold mbind, io_bind. destruct (res m) as [a|e]; simpl; split.
  - intros H. by exists a.
  - by intros (a' & [= ->] & H).
  - discriminate.
  - by intros (a' & [=] & _).
Qed.

Lemma res_lift {A} (r : result A) : res (lift r) = r.
Proof. done. Qed.

Lemma mapM_Ok {A B} (f : A → result B) (l : list A) (ys : list B) :
  mapM f l = Ok ys ↔ Forall2 (λ x y, f x = Ok y) l ys.
Proof.
  revert ys. induction l as [|x l IH]; intros ys; simpl.
  - split.
    + intros [= <-]. constructor.
    + intros H. by inversion H.
  - split.
    + intros H. apply bind_Ok in H as (y & Hy & H).
      apply bind_Ok in H as (k & Hk & H). injection H as <-.
      constructor; [done|]. by apply IH.
    + intros H. inversion H as [|? y ? k Hy Hk]; subst.
      apply IH in Hk. change (f x ≫= (λ y, mapM f l ≫= (λ k, mret (y :: k))) = Ok (y :: k)).
      rewrite Hy. simpl. rewrite Hk. done.
Qed.

Lemma mapM_total {A B} (f : A → result B) (l : list A) :
  Forall (λ x, ∃ y, f x = Ok y) l → ∃ ys, mapM f l = Ok ys.
Proof.
  induction 1 as [|x l [y Hy] _ [ys IH]].
  - by exists [].
  - exists (y :: ys). apply mapM_Ok. constructor; [done|]. by apply mapM_Ok.
Qed.

Lemma mapM_Raise {A B} (f : A → result B) (l1 l2 : list A) (x : A) (e : error) :
  Forall (λ x, ∃ y, f x = Ok y) l1 → f x = Raise e →
  mapM f (l1 ++ x :: l2) = Raise e.
Proof.
  intros Hl1 Hx. induction Hl1 as [|x' l1 [y Hy] _ IH]; simpl.
  - change (f x ≫= (λ y, mapM f l2 ≫= (λ k, mret (y :: k))) = Raise e).
    by rewrite Hx.
  - change (f x' ≫= (λ y, mapM f (l1 ++ x :: l2) ≫= (λ k, mret (y :: k))) = Raise e).
    rewrite Hy. simpl. by rewrite IH.
Qed.

(** *** Column positions *)

Lemma col_index_Some (c : string) (cols : list string) (j : nat) :
  col_index c cols = Some j → cols !! j = Some c ∧ (j < length cols)%nat.
Proof.
  unfold col_index. intros H.
  destruct (list_find _ cols) as [[j' c']|] eqn:Hf; simplify_eq/=.
  apply list_find_Some in Hf as (Hj & -> & _).
  split; [done|]. by eapply lookup_lt_Some.
Qed.

Lemma col_index_None (c : string) (cols : list string) :
  col_index c cols = None ↔ c ∉ cols.
Proof.
  unfold col_index. rewrite fmap_None, list_find_None, list.Forall_forall.
  split.
  - intros H Hin. by apply (H c).
  - intros H x Hx ->. done.
Qed.

Lemma col_index_is_Some (c : string) (cols : list string) :
  c ∈ cols → ∃ j, col_index c cols = Some j.
Proof.
  intros Hin. destruct (col_index c cols) as [j|] eqn:H; [by exists j|].
  by apply col_index_None in H.
Qed.

Lemma col_index_snoc (c : string) (cols : list string) :
  c ∉ cols → col_index c (cols ++ [c]) = Some (length cols).
Proof.
  intros Hnot. unfold col_index.
  assert (list_find (λ c', c' = c) (cols ++ [c]) = Some (length cols, c)) as ->; [|done].
  apply list_find_Some. split_and!.
  - by rewrite lookup_app_r, Nat.sub_diag.
  - done.
  - intros j y Hj Hlt ->.
    rewrite lookup_app_l in Hj by done.
    apply Hnot. by eapply list_elem_of_lookup_2.
Qed.

Lemma col_index_snoc_ne (c c' : string) (cols : list string) :
  c' ≠ c → col_index c' (cols ++ [c]) = col_index c' cols.
Proof.
  intros Hne. unfold col_index.
  induction cols as [|x cols IH]; simpl.
  - by rewrite decide_False.
  - destruct (decide (x = c')); [done|].
    destruct (list_find _ (cols ++ [c])) as [[]|], (list_find _ cols) as [[]|];
      simplify_eq/=; done.
Qed.

(** *** Cells of a table after a column assignment *)

Lemma cell_Some (df : DataFrame) (i : nat) (c : string) (v : value) :
  cell df i c = Some v ↔
  ∃ r j, rows df !! i = Some r ∧ col_index c (columns df) = Some j ∧ r !! j = Some v.
Proof.
  unfold cell. split.
  - intros H. destruct (rows df !! i) as [r|]; simplify_eq/=.
    destruct (col_index c (columns df)) as [j|]; simplify_eq/=.
    by exists r, j.
  - intros (r & j & -> & Hj & Hv). simpl. by rewrite Hj.
Qed.

Lemma wf_lookup (df : DataFrame) (i : nat) (r : list value) :
  wf df → rows df !! i = Some r → length r = length (columns df).
Proof. intros Hwf Hr. by eapply (Forall_lookup_1 _ _ _ _ Hwf). Qed.

Lemma columns_set_col (df : DataFrame) (c : string) (vs : list value) (c' : string) :
  c' ∈ columns (set_col df c vs) ↔ c' ∈ columns df ∨ c' = c.
Proof.
  unfold set_col. destruct (col_index c (columns df)) as [j|] eqn:Hj; simpl.
  - apply col_index_Some in Hj as [Hj _].
    apply list_elem_of_lookup_2 in Hj. split; [auto|]. by intros [?| ->].
  - rewrite elem_of_app, list_elem_of_singleton. done.
Qed.

Lemma columns_set_col_in (df : DataFrame) (c : string) (vs : list value) :
  c ∈ columns df → columns (set_col df c vs) = columns df.
Proof.
  intros Hin. destruct (col_index_is_Some _ _ Hin) as [j Hj].
  unfold set_col. by rewrite Hj.
Qed.

Lemma length_rows_set_col (df : DataFrame) (c : string) (vs : list value) :
  length vs = length (rows df) →
  length (rows (set_col df c vs)) = length (rows df).
Proof.
  intros Hlen. unfold set_col.
  destruct (col_index c (columns df)); simpl; rewrite length_zip_with; lia.
Qed.

Lemma wf_set_col (df : DataFrame) (c : string) (vs : list value) :
  wf df → wf (set_col df c vs).
Proof.
  intros Hwf. unfold wf, set_col.
  destruct (col_index c (columns df)) as [j|]; simpl;
    apply Forall_lookup; intros i r' Hr';
    apply lookup_zip_with_Some in Hr' as (r & v & -> & Hr & _);
    pose proof (wf_lookup _ _ _ Hwf Hr) as Hlen.
  - by rewrite length_insert.
  - rewrite !length_app. simpl. lia.
Qed.

Lemma cell_set_col_eq (df : DataFrame) (c : string) (vs : list value)
    (i : nat) (v : value) :
  wf df → (i < length (rows df))%nat → vs !! i = Some v →
  cell (set_col df c vs) i c = Some v.
Proof.
  intros Hwf Hi Hv.
  destruct (lookup_lt_is_Some_2 _ _ Hi) as [r Hr].
  pose proof (wf_lookup _ _ _ Hwf Hr) as Hlen.
  apply cell_Some. unfold set_col.
  destruct (col_index c (columns df)) as [j|] eqn:Hj; simpl.
  - exists (<[j:=v]> r), j. split_and!; [|done|].
    + apply lookup_zip_with_Some. by exists r, v.
    + apply col_index_Some in Hj as [_ Hj].
      apply list_lookup_insert_eq. lia.
  - exists (r ++ [v])%list, (length (columns df)). split_and!.
    + apply lookup_zip_with_Some. by exists r, v.
    + apply col_index_snoc. by apply col_index_None.
    + rewrite lookup_app_r by lia. by rewrite Hlen, Nat.sub_diag.
Qed.

Lemma cell_set_col_ne (df : DataFrame) (c c' : string) (vs : list value)
    (i : nat) :
  wf df → c' ≠ c → length vs = length (rows df) →
  cell (set_col df c vs) i c' = cell df i c'.
Proof.
  intros Hwf Hne Hlen. unfold cell, set_col.
  destruct (col_index c (columns df)) as [j|] eqn:Hj; simpl.
  - rewrite lookup_zip_with.
    destruct (rows df !! i) as [r|] eqn:Hr; simpl; [|done].
    destruct (vs !! i) as [v|] eqn:Hv; simpl.
    + destruct (col_index c' (columns df)) as [j'|] eqn:Hj'; simpl; [|done].
      apply list_lookup_insert_ne. intros ->.
      apply col_index_Some in Hj as [Hj _].
      apply col_index_Some in Hj' as [Hj' _]. congruence.
    + apply lookup_ge_None in Hv. apply lookup_lt_Some in Hr. lia.
  - rewrite lookup_zip_with, col_index_snoc_ne by done.
    destruct (rows df !! i) as [r|] eqn:Hr; simpl; [|done].
    destruct (vs !! i) as [v|] eqn:Hv; simpl.
    + destruct (col_index c' (columns df)) as [j'|] eqn:Hj'; simpl; [|done].
      apply col_index_Some in Hj' as [_ Hj'].
      pose proof (wf_lookup _ _ _ Hwf Hr). apply lookup_app_l. lia.
    + apply lookup_ge_None in Hv. apply lookup_lt_Some in Hr. lia.
Qed.

Lemma get_col_Ok (df : DataFrame) (c : string) :
  c ∈ columns df → ∃ vs, get_col df c = Ok vs.
Proof.
  intros Hin. destruct (col_index_is_Some _ _ Hin) as [j Hj].
  unfold get_col. rewrite Hj. eauto.
Qed.

Lemma get_col_Raise (df : DataFrame) (c : string) :
  c ∉ columns df → get_col df c = Raise (KeyError c).
Proof.
  intros Hin. apply col_index_None in Hin. unfold get_col. by rewrite Hin.
Qed.

Lemma get_col_length (df : DataFrame) (c : string) (vs : list value) :
  get_col df c = Ok vs → length vs = length (rows df).
Proof.
  unfold get_col. destruct (col_index c (columns df)); [|done].
  intros [= <-]. by rewrite length_fmap.
Qed.

Lemma get_col_in (df : DataFrame) (c : string) (vs : list value) :
  get_col df c = Ok vs → c ∈ columns df.
Proof.
  unfold get_col. destruct (col_index c (columns df)) as [j|] eqn:Hj; [|done].
  intros _. apply col_index_Some in Hj as [Hj _].
  by eapply list_elem_of_lookup_2.
Qed.

Lemma get_col_lookup (df : DataFrame) (c : string) (vs : list value) (i : nat) :
  wf df → get_col df c = Ok vs → vs !! i = cell df i c.
Proof.
  intros Hwf. unfold get_col, cell.
  destruct (col_index c (columns df)) as [j|] eqn:Hj; [|done].
  intros [= <-]. rewrite list_lookup_fmap.
  destruct (rows df !! i) as [r|] eqn:Hr; simpl; [|done].
  apply col_index_Some in Hj as [_ Hj].
  pose proof (wf_lookup _ _ _ Hwf Hr).
  symmetry. apply list_lookup_lookup_total_lt. lia.
Qed.

Lemma get_col_set_col (df : DataFrame) (c : string) (vs : list value) :
  wf df → length vs = length (rows df) →
  get_col (set_col df c vs) c = Ok vs.
Proof.
  intros Hwf Hlen. unfold get_col, set_col.
  destruct (col_index c (columns df)) as [j|] eqn:Hj; simpl.
  - rewrite Hj. f_equal. apply list_eq. intros i.
    rewrite list_lookup_fmap, lookup_zip_with.
    destruct (rows df !! i) as [r|] eqn:Hr; simpl.
    + destruct (vs !! i) as [v|] eqn:Hv; simpl.
      * f_equal. apply list_lookup_total_insert_eq.
        apply col_index_Some in Hj as [_ Hj].
        pose proof (wf_lookup _ _ _ Hwf Hr). lia.
      * apply lookup_ge_None in Hv. apply lookup_lt_Some in Hr. lia.
    + symmetry. apply lookup_ge_None. apply lookup_ge_None in Hr. lia.
  - rewrite col_index_snoc by (by apply col_index_None). f_equal.
    apply list_eq. intros i. rewrite list_lookup_fmap, lookup_zip_with.
    destruct (rows df !! i) as [r|] eqn:Hr; simpl.
    + destruct (vs !! i) as [v|] eqn:Hv; simpl.
      * f_equal. pose proof (wf_lookup _ _ _ Hwf Hr) as Hr'.
        rewrite lookup_total_app_r by lia. by rewrite Hr', Nat.sub_diag.
      * apply lookup_ge_None in Hv. apply lookup_lt_Some in Hr. lia.
    + symmetry. apply lookup_ge_None. apply lookup_ge_None in Hr. lia.
Qed.

(** Assigning a column its own cells changes nothing. *)
Lemma set_col_own (df : DataFrame) (c : string) (vs : list value) :
  wf df → get_col df c = Ok vs → set_col df c vs = df.
Proof.
  intros Hwf Hvs. unfold get_col in Hvs. unfold set_col.
  destruct (col_index c (columns df)) as [j|] eqn:Hj; [|done].
  injection Hvs as <-. destruct df as [labels rs]. simpl in *. f_equal.
  apply list_eq. intros i. rewrite lookup_zip_with, list_lookup_fmap.
  destruct (rs !! i) as [r|] eqn:Hr; simpl; [|done]. f_equal.
  apply list_insert_id. apply list_lookup_lookup_total_lt.
  apply col_index_Some in Hj as [_ Hj].
  pose proof (wf_lookup (mkDF labels rs) i r Hwf Hr) as Hlen. simpl in Hlen. lia.
Qed.

Lemma get_col_set_col_ne (df : DataFrame) (c c' : string) (vs : list value) :
  wf df → c' ≠ c → length vs = length (rows df) →
  get_col (set_col df c vs) c' = get_col df c'.
Proof.
  intros Hwf Hne Hlen.
  destruct (decide (c' ∈ columns df)) as [Hin|Hout].
  - destruct (get_col_Ok _ _ Hin) as [ws Hws]. rewrite Hws.
    assert (Hin' : c' ∈ columns (set_col df c vs)) by (apply columns_set_col; auto).
    destruct (get_col_Ok _ _ Hin') as [ws' Hws']. rewrite Hws'. f_equal.
    apply list_eq. intros i.
    rewrite (get_col_lookup _ _ _ i (wf_set_col _ _ _ Hwf) Hws').
    rewrite (get_col_lookup _ _ _ i Hwf Hws). by apply cell_set_col_ne.
  - rewrite (get_col_Raise _ _ Hout). apply get_col_Raise.
    rewrite columns_set_col. by intros [?|?].
Qed.

(** *** Columns read for the [.str] accessor *)

Lemma filter_label_absent (c : string) (cols : list string) :
  c ∉ cols → filter (λ c', c' = c) cols = [].
Proof.
  induction cols as [|x cols IH]; [done|]. intros Hc.
  apply not_elem_of_cons in Hc as [Hne Hc].
  rewrite filter_cons, decide_False by done. by apply IH.
Qed.

Lemma NoDup_not_duplicated (c : string) (cols : list string) :
  NoDup cols → ¬ duplicated c cols.
Proof.
  unfold duplicated. induction 1 as [|x cols Hx _ IH]; simpl; [lia|].
  rewrite filter_cons. destruct (decide (x = c)) as [->|]; [|done].
  simpl. rewrite filter_label_absent by done. simpl. lia.
Qed.

Lemma duplicated_in (c : string) (cols : list string) :
  duplicated c cols → c ∈ cols.
Proof.
  unfold duplicated. intros H.
  destruct (filter (λ c', c' = c) cols) as [|y l] eqn:Hf; [simpl in H; lia|].
  assert (Hy : y ∈ filter (λ c', c' = c) cols) by (rewrite Hf; by left).
  apply list_elem_of_filter in Hy as [-> ?]. done.
Qed.

Lemma duplicated_snoc (c c' : string) (cols : list string) :
  c ∉ cols → duplicated c' (cols ++ [c]) ↔ duplicated c' cols.
Proof.
  intros Hc. unfold duplicated. rewrite list.filter_app, length_app.
  rewrite filter_cons, filter_nil.
  destruct (decide (c = c')) as [->|]; simpl; [|by rewrite Nat.add_0_r].
  rewrite filter_label_absent by done. simpl. lia.
Qed.

Lemma duplicated_set_col (df : DataFrame) (c c' : string) (vs : list value) :
  duplicated c' (columns (set_col df c vs)) ↔ duplicated c' (columns df).
Proof.
  unfold set_col. destruct (col_index c (columns df)) as [j|] eqn:Hj; simpl.
  - done.
  - apply duplicated_snoc. by apply col_index_None.
Qed.

Lemma get_series_Ok (df : DataFrame) (c : string) :
  c ∈ columns df → ¬ duplicated c (columns df) →
  ∃ vs, get_series df c = Ok vs ∧ get_col df c = Ok vs.
Proof.
  intros Hin Hdup. destruct (get_col_Ok _ _ Hin) as [vs Hvs].
  exists vs. unfold get_series. rewrite Hvs. simpl.
  by rewrite decide_False.
Qed.

Lemma get_series_inv (df : DataFrame) (c : string) (vs : list value) :
  get_series df c = Ok vs →
  get_col df c = Ok vs ∧ ¬ duplicated c (columns df).
Proof.
  unfold get_series. intros H. apply bind_Ok in H as (vs' & Hvs & H).
  destruct (decide (duplicated c (columns df))); [done|].
  by injection H as <-.
Qed.

Lemma get_series_missing (df : DataFrame) (c : string) :
  c ∉ columns df → get_series df c = Raise (KeyError c).
Proof. intros H. unfold get_series. by rewrite get_col_Raise. Qed.

Lemma get_series_duplicated (df : DataFrame) (c : string) :
  duplicated c (columns df) → get_series df c = Raise AttributeError.
Proof.
  intros H. destruct (get_col_Ok _ _ (duplicated_in _ _ H)) as [vs Hvs].
  unfold get_series. rewrite Hvs. simpl. by rewrite decide_True.
Qed.

End FrameFacts.
(** ** The train/test split *)

Module SplitFacts.
Import Num Modelling FrameFacts.

Lemma Qc_le_negb_lt (a b : Qc) :
  bool_decide (b ≤ a)%Qc = negb (bool_decide (a < b)%Qc).
Proof.
  destruct (decide (a < b)%Qc) as [Hlt|Hnlt].
  - rewrite (bool_decide_eq_true_2 _ Hlt). simpl.
    apply bool_decide_eq_false_2. by apply Qclt_not_le.
  - rewrite (bool_decide_eq_false_2 _ Hnlt). simpl.
    apply bool_decide_eq_true_2. by apply Qcnot_lt_le.
Qed.

Lemma Z_le_negb_lt (a b : Z) :
  bool_decide (b ≤ a) = negb (bool_decide (a < b)).
Proof.
  destruct (decide (a < b)) as [Hlt|Hnlt].
  - rewrite (bool_decide_eq_true_2 _ Hlt). simpl.
    apply bool_decide_eq_false_2. lia.
  - rewrite (bool_decide_eq_false_2 _ Hnlt). simpl.
    apply bool_decide_eq_true_2. lia.
Qed.

(** On a cell that is not null, [>=] is the negation of [<]. *)
Lemma season_ge_negb_lt (v : value) (split_year : Z) (b : bool) :
  non_null v → season_lt v split_year = Ok b →
  season_ge v split_year = Ok (negb b).
Proof.
  unfold non_null. intros Hv H.
  destruct v as [s|z|x|c| |]; simplify_eq/=.
  - by rewrite Z_le_negb_lt.
  - f_equal. destruct x as [a| | |]; simpl; try done.
    unfold geb, of_Z; simpl. apply Qc_le_negb_lt.
  - by rewrite Z_le_negb_lt.
Qed.

(** On a null both comparisons are false. *)
Lemma season_null (v : value) (split_year : Z) :
  notna v = false →
  season_lt v split_year = Ok false ∧ season_ge v split_year = Ok false.
Proof. by destruct v as [s|z|[]|c| |]. Qed.

Lemma season_lt_total (v : value) (split_year : Z) :
  (∀ s, v ≠ VStr s) → ∃ b, season_lt v split_year = Ok b.
Proof. intros Hv. destruct v; simpl; eauto. by destruct (Hv s). Qed.

Lemma season_ge_total (v : value) (split_year : Z) :
  (∀ s, v ≠ VStr s) → ∃ b, season_ge v split_year = Ok b.
Proof. intros Hv. destruct v; simpl; eauto. by destruct (Hv s). Qed.

Lemma Ok_bool_decide (P : Prop) `{Decision P} :
  (Ok (bool_decide P) : result bool) = Ok true ↔ P.
Proof.
  split.
  - intros [= H']. by apply bool_decide_eq_true in H'.
  - intros HP. by rewrite bool_decide_eq_true_2.
Qed.

(** A mask computed row by row keeps the rows on which the computation
    comes out true, in their order. *)
Lemma mask_rows_filter {A} (f : A → result bool) (rs : list A)
    (mask : list bool) :
  Forall2 (λ r b, f r = Ok b) rs mask →
  mask_rows mask rs = filter (λ r, f r = Ok true) rs.
Proof.
  induction 1 as [|r b rs mask Hb _ IH]; [done|].
  simpl. rewrite filter_cons, IH. destruct b.
  - by rewrite decide_True.
  - rewrite decide_False; [done|]. by rewrite Hb.
Qed.

(** Two tests of which exactly one holds on every element cut a list in
    two parts that make it up. *)
Lemma filter_complement {A} (P Q : A → Prop) `{∀ x, Decision (P x)}
    `{∀ x, Decision (Q x)} (rs : list A) :
  Forall (λ r, P r ↔ ¬ Q r) rs → filter P rs ++ filter Q rs ≡ₚ rs.
Proof.
  induction 1 as [|r rs Hr _ IH]; [done|].
  rewrite !filter_cons. destruct (decide (P r)) as [HP|HP].
  - rewrite decide_False by (by apply Hr). simpl. by f_equiv.
  - rewrite decide_True by (destruct (decide (Q r)); [done|by destruct HP; apply Hr]).
    rewrite <- Permutation_middle. by f_equiv.
Qed.

Lemma get_col_row_get (df : DataFrame) (c : string) (vs : list value) :
  get_col df c = Ok vs →
  Forall2 (λ r v, row_get (columns df) r c = Ok v) (rows df) vs.
Proof.
  unfold get_col, row_get. destruct (col_index c (columns df)) as [j|]; [|done].
  intros [= <-]. apply Forall2_fmap_r, Forall_Forall2_diag, list.Forall_forall.
  done.
Qed.

(** C3: the two partitions are cut by the comparison of Season with
    [split_year] alone.  The train partition is the list of the rows whose
    Season is below [split_year], the test partition the list of the rows
    whose Season is [split_year] or more, both in table order, with the
    columns of the table.  Hence a row with an integer (or float) Season is
    in the train partition exactly when its Season is below [split_year]
    and in the test partition exactly when it is not; every row whose
    Season is not null is in exactly one of the two; a row whose Season is
    null is in neither; and when no Season is null the two partitions
    together are the rows of the table. *)
Theorem split_is_temporal_partition (model_df : DataFrame) (split_year : Z)
    (season : list value) :
  NoDup (columns model_df) →
  get_col model_df "Season" = Ok season →
  Forall (λ v, ∀ s, v ≠ VStr s) season →
  ∃ train test,
    train_df model_df split_year = Ok train ∧
    test_df model_df split_year = Ok test ∧
    columns train = columns model_df ∧ columns test = columns model_df ∧
    rows train = filter (season_below model_df split_year) (rows model_df) ∧
    rows test = filter (season_from model_df split_year) (rows model_df) ∧
    (∀ r v, r ∈ rows model_df →
       row_get (columns model_df) r "Season" = Ok v →
       (∀ z, v = VInt z →
          (r ∈ rows train ↔ z < split_year) ∧
          (r ∈ rows test ↔ split_year ≤ z)) ∧
       (∀ q, v = VFloat (Fin q) →
          (r ∈ rows train ↔ (q < Q2Qc (inject_Z split_year))%Qc) ∧
          (r ∈ rows test ↔ (Q2Qc (inject_Z split_year) ≤ q)%Qc)) ∧
       (notna v = true → (r ∈ rows train ↔ r ∉ rows test)) ∧
       (notna v = false → (r ∉ rows train) ∧ (r ∉ rows test))) ∧
    sublist (rows train) (rows model_df) ∧
    sublist (rows test) (rows model_df) ∧
    (Forall non_null season →
     rows train ++ rows test ≡ₚ rows model_df).
Proof.
  intros _ Hcol Hnum.
  pose proof (get_col_row_get _ _ _ Hcol) as Hrows.
  assert (Htm : ∃ tm, mapM (λ v, season_lt v split_year) season = Ok tm).
  { apply mapM_total. eapply list.Forall_impl; [exact Hnum|].
    intros v. apply season_lt_total. }
  assert (Hsm : ∃ sm, mapM (λ v, season_ge v split_year) season = Ok sm).
  { apply mapM_total. eapply list.Forall_impl; [exact Hnum|].
    intros v. apply season_ge_total. }
  destruct Htm as [tm Htm], Hsm as [sm Hsm].
  assert (Htrain : rows (mkDF (columns model_df) (mask_rows tm (rows model_df)))
                   = filter (season_below model_df split_year) (rows model_df)).
  { simpl. apply (mask_rows_filter
      (λ r, row_get (columns model_df) r "Season" ≫= (λ v, season_lt v split_year))).
    apply mapM_Ok in Htm. apply Forall2_same_length_lookup. split.
    { apply Forall2_length in Hrows, Htm. congruence. }
    intros i r b Hr Hb.
    destruct (Forall2_lookup_l _ _ _ _ _ Hrows Hr) as (v & Hv & ->).
    destruct (Forall2_lookup_l _ _ _ _ _ Htm Hv) as (b' & Hb' & Hlt).
    simpl. by simplify_eq. }
  assert (Htest : rows (mkDF (columns model_df) (mask_rows sm (rows model_df)))
                  = filter (season_from model_df split_year) (rows model_df)).
  { simpl. apply (mask_rows_filter
      (λ r, row_get (columns model_df) r "Season" ≫= (λ v, season_ge v split_year))).
    apply mapM_Ok in Hsm. apply Forall2_same_length_lookup. split.
    { apply Forall2_length in Hrows, Hsm. congruence. }
    intros i r b Hr Hb.
    destruct (Forall2_lookup_l _ _ _ _ _ Hrows Hr) as (v & Hv & ->).
    destruct (Forall2_lookup_l _ _ _ _ _ Hsm Hv) as (b' & Hb' & Hge).
    simpl. by simplify_eq. }
  eexists _, _. split_and!.
  - unfold train_df, train_mask. rewrite Hcol. simpl. rewrite Htm. reflexivity.
  - unfold test_df, test_mask. rewrite Hcol. simpl. rewrite Hsm. reflexivity.
  - done.
  - done.
  - exact Htrain.
  - exact Htest.
  - intros r v Hr Hv. rewrite Htrain, Htest.
    assert (Ht : r ∈ filter (season_below model_df split_year) (rows model_df)
                 ↔ season_lt v split_year = Ok true).
    { rewrite list_elem_of_filter. unfold season_below. rewrite Hv. simpl.
      split; [by intros []|done]. }
    assert (Hs : r ∈ filter (season_from model_df split_year) (rows model_df)
                 ↔ season_ge v split_year = Ok true).
    { rewrite list_elem_of_filter. unfold season_from. rewrite Hv. simpl.
      split; [by intros []|done]. }
    split_and!.
    + intros z ->. rewrite Ht, Hs. simpl. by rewrite !Ok_bool_decide.
    + intros q ->. rewrite Ht, Hs. simpl. unfold geb, of_Z. simpl.
      by rewrite !Ok_bool_decide.
    + intros Hna. rewrite Ht, Hs.
      assert (Hv' : ∀ s, v ≠ VStr s).
      { intros s ->. apply list_elem_of_lookup in Hr as [i Hi].
        destruct (Forall2_lookup_l _ _ _ _ _ Hrows Hi) as (v' & Hv' & Hget).
        rewrite Hv in Hget. injection Hget as <-.
        assert (Hin : VStr s ∈ season) by (by eapply list_elem_of_lookup_2).
        by apply (proj1 (list.Forall_forall _ _) Hnum _ Hin s). }
      destruct (season_lt_total v split_year Hv') as [b Hb].
      rewrite Hb, (season_ge_negb_lt v split_year b Hna Hb).
      destruct b; simpl; split; try done; intros H; by destruct H.
    + intros Hna. rewrite Ht, Hs.
      destruct (season_null v split_year Hna) as [-> ->].
      split; by intros [=].
  - rewrite Htrain. apply sublist_filter.
  - rewrite Htest. apply sublist_filter.
  - intros Hnn. rewrite Htrain, Htest. apply filter_complement.
    apply list.Forall_forall. intros r Hr.
    apply list_elem_of_lookup in Hr as [i Hi].
    destruct (Forall2_lookup_l _ _ _ _ _ Hrows Hi) as (v & Hv & Hget).
    assert (Hin : v ∈ season) by (by eapply list_elem_of_lookup_2).
    pose proof (proj1 (list.Forall_forall _ _) Hnn v Hin) as Hna.
    pose proof (proj1 (list.Forall_forall _ _) Hnum v Hin) as Hv'.
    destruct (season_lt_total v split_year Hv') as [b Hb].
    unfold season_below, season_from. rewrite Hget. simpl.
    rewrite Hb, (season_ge_negb_lt v split_year b Hna Hb).
    destruct b; simpl; split; try done; intros H; by destruct H.
Qed.

(** On the sample, with the split year 2022: the season 2021 is the train
    partition, the seasons 2022 and 2023 are the test partition, in table
    order. *)
Lemma split_is_temporal_partition_witness :
  ∃ train test,
    train_df Samples.attendance_df 2022 = Ok train ∧
    test_df Samples.attendance_df 2022 = Ok test ∧
    rows train
    = [[VInt 2021; VStr "A"; VInt 1; VInt 0; VInt 30000; VInt 60000]] ∧
    rows test
    = [[VInt 2022; VStr "A"; VInt 1; VInt 0; VInt 33000; VInt 60000];
       [VInt 2023; VStr "B"; VInt 0; VInt 1; VInt 1000; VInt 5000];
       [VInt 2023; VStr "A"; VInt 1; VInt 0; VInt 36000; VInt 60000]].
Proof.
  destruct (split_is_temporal_partition Samples.attendance_df 2022
              [VInt 2022; VInt 2021; VInt 2023; VInt 2023])
    as (train & test & Htrain & Htest & _ & _ & Hrt & Hrs & _).
  - apply (bool_decide_unpack _). by vm_compute.
  - reflexivity.
  - repeat constructor; by intros s.
  - exists train, test.
    split; [exact Htrain|]. split; [exact Htest|].
    rewrite Hrt, Hrs. split; by vm_compute.
Defined.

End SplitFacts.

(** ** src/data_utils.py: properties *)

Module DataUtilsFacts.
Import DataUtils FrameFacts.

(** *** convert_column_names *)

Lemma fmap_id_Forall {A} (f : A → A) (l : list A) :
  f <$> l = l ↔ Forall (λ x, f x = x) l.
Proof.
  induction l as [|x l IH]; simpl.
  - split; [constructor|done].
  - rewrite list.Forall_cons, <- IH. split.
    + intros [= H1 H2]. by split.
    + intros [H1 H2]. by f_equal.
Qed.

(** Renaming a label forth and back returns it exactly when the label is a
    key of the mapping or is no new name of the mapping. *)
Lemma rename_label_round_trip (m inv : gmap string string) (c : string) :
  inverse_of m inv →
  rename_label inv (rename_label m c) = c ↔
  (m !! c = None → ∀ k, m !! k ≠ Some c).
Proof.
  intros Hinv. unfold rename_label.
  destruct (m !! c) as [n|] eqn:Hc; simpl.
  - apply Hinv in Hc. rewrite Hc. simpl. by split.
  - destruct (inv !! c) as [k|] eqn:Hk; simpl.
    + apply Hinv in Hk. split.
      * intros ->. congruence.
      * intros H. by destruct (H eq_refl k).
    + split; [|done]. intros _ _ k Hk'. apply Hinv in Hk'. congruence.
Qed.

(** C10, as amended: for an injective mapping and its exact inverse,
    renaming forth and back restores the column names exactly when no
    column that the mapping leaves alone already bears one of the mapping's
    new names; the cells are never touched, unmapped columns pass through
    unchanged, and keys that match no column have no effect. *)
Theorem convert_column_names_round_trip (df : DataFrame)
    (m inv : gmap string string) :
  injective_map m → inverse_of m inv →
  (columns (convert_column_names (convert_column_names df m) inv) = columns df
   ↔ Forall (λ c, m !! c = None → ∀ k, m !! k ≠ Some c) (columns df)) ∧
  rows (convert_column_names (convert_column_names df m) inv) = rows df ∧
  (∀ c, m !! c = None → rename_label m c = c) ∧
  (∀ m' : gmap string string,
     (∀ c, c ∈ columns df → m !! c = m' !! c) →
     convert_column_names df m = convert_column_names df m').
Proof.
  intros _ Hinv. split_and!.
  - unfold convert_column_names; simpl.
    rewrite <- list_fmap_compose, fmap_id_Forall.
    apply Forall_iff. intros c. by apply rename_label_round_trip.
  - done.
  - intros c Hc. unfold rename_label. by rewrite Hc.
  - intros m' Hm. unfold convert_column_names. f_equal.
    apply list_fmap_ext. intros i c Hc. unfold rename_label.
    rewrite (Hm c); [done|]. by eapply list_elem_of_lookup_2.
Qed.

Lemma convert_column_names_round_trip_witness :
  columns (convert_column_names
             (convert_column_names (mkDF ["a"; "c"] [[VInt 1; VInt 2]])
                                   {["a" := "b"]})
             {["b" := "a"]}) = ["a"; "c"].
Proof.
  apply (convert_column_names_round_trip
           (mkDF ["a"; "c"] [[VInt 1; VInt 2]]) {["a" := "b"]} {["b" := "a"]}).
  - intros k1 k2 v H1 H2.
    apply lookup_singleton_Some in H1 as [<- _].
    by apply lookup_singleton_Some in H2 as [<- _].
  - intros k v. rewrite !lookup_singleton_Some. split; by intros [<- <-].
  - simpl. repeat constructor.
    + intros H. by apply lookup_singleton_None in H.
    + intros _ k H. by apply lookup_singleton_Some in H as [_ [=]].
Defined.

(** C10, as stated, fails: the mapping [{x: a}] is injective and matches no
    column of a table whose only column is [a], so it has no effect; its
    exact inverse [{a: x}] then renames [a] to [x]. *)
Lemma convert_column_names_round_trip_fails :
  let df := mkDF ["a"] [[VInt 1]] in
  let m : gmap string string := {["x" := "a"]} in
  let inv : gmap string string := {["a" := "x"]} in
  injective_map m ∧ inverse_of m inv ∧
  columns (convert_column_names df m) = ["a"] ∧
  columns (convert_column_names (convert_column_names df m) inv) = ["x"] ∧
  columns (convert_column_names (convert_column_names df m) inv) ≠ columns df.
Proof.
  split_and!.
  - intros k1 k2 v H1 H2.
    apply lookup_singleton_Some in H1 as [<- _].
    by apply lookup_singleton_Some in H2 as [<- _].
  - intros k v. rewrite !lookup_singleton_Some. split; by intros [<- <-].
  - by vm_compute.
  - by vm_compute.
  - by vm_compute.
Qed.

(** *** create_unique_id *)

Section with_float_repr.
Variable float_repr : Qc → string.

Lemma select_Ok (df : DataFrame) (cols : list string) :
  Forall (λ c, c ∈ columns df) cols →
  ∃ idxs, select df cols = Ok idxs ∧
          Forall2 (λ c j, col_index c (columns df) = Some j) cols idxs.
Proof.
  intros Hin.
  assert (H : Forall (λ c, ∃ j, match col_index c (columns df) with
                                | Some i => Ok i
                                | None => Raise (KeyError c)
                                end = Ok j) cols).
  { eapply list.Forall_impl; [exact Hin|]. intros c Hc.
    destruct (col_index_is_Some _ _ Hc) as [j ->]. eauto. }
  destruct (mapM_total _ _ H) as [idxs Hidxs]. exists idxs. split; [done|].
  apply mapM_Ok in Hidxs. eapply list.Forall2_impl; [exact Hidxs|].
  intros c j. simpl. by destruct (col_index c (columns df)); intros [=]; subst.
Qed.

Lemma select_Raise (df : DataFrame) (cols : list string) :
  Exists (λ c, c ∉ (columns df)) cols →
  ∃ c, c ∈ cols ∧ (c ∉ columns df) ∧ select df cols = Raise (KeyError c).
Proof.
  induction cols as [|c cols IH]; intros Hex; [by inversion Hex|].
  unfold select. simpl.
  destruct (col_index c (columns df)) as [j|] eqn:Hj.
  - assert (Hc : c ∈ columns df).
    { apply col_index_Some in Hj as [Hj _]. by eapply list_elem_of_lookup_2. }
    apply Exists_cons in Hex as [?|Hex]; [done|].
    destruct (IH Hex) as (c' & Hin & Hmiss & Hsel).
    exists c'. split_and!; [by right|done|].
    unfold select in Hsel. simpl. by rewrite Hsel.
  - exists c. split_and!; [by left|by apply col_index_None|done].
Qed.

(** C7: on a table with distinct column labels, the new column holds, row
    by row, the texts of the cells of the listed columns joined by an
    underscore in the order of the list, and a listed column that is no
    column of the table makes the call fail with a missing-column error.
    The text of a cell is the cell itself for a text, the decimal numeral
    for an integer, True or False for a boolean, None, <NA> and nan for
    the nulls, and the printed float for a finite float. *)
Theorem create_unique_id_joins (df : DataFrame) (cols : list string)
    (new_column : string) :
  wf df → NoDup (columns df) →
  (Forall (λ c, c ∈ columns df) cols →
     ∃ df', create_unique_id float_repr df cols new_column = Ok df' ∧
       length (rows df') = length (rows df) ∧
       ∀ i, (i < length (rows df))%nat →
         ∃ vs, Forall2 (λ c v, cell df i c = Some v) cols vs ∧
               cell df' i new_column
               = Some (VStr (PyStr.join "_" (py_str float_repr <$> vs)))) ∧
  (Exists (λ c, c ∉ (columns df)) cols →
     ∃ c, c ∈ cols ∧ (c ∉ columns df) ∧
          create_unique_id float_repr df cols new_column = Raise (KeyError c)) ∧
  (∀ s, py_str float_repr (VStr s) = s) ∧
  (∀ q, py_str float_repr (VFloat (Fin q)) = float_repr q) ∧
  py_str float_repr <$> [VInt 0; VInt 7; VInt 2021; VInt (-12)]
  = ["0"; "7"; "2021"; "-12"] ∧
  py_str float_repr <$> [VBool true; VBool false; VNone; VNA; VFloat NaN;
                         VFloat PInf; VFloat NInf]
  = ["True"; "False"; "None"; "<NA>"; "nan"; "inf"; "-inf"] ∧
  PyStr.join "_" (py_str float_repr <$> [VStr "2020_2021"; VInt 7])
  = "2020_2021_7" ∧
  PyStr.join "_" (py_str float_repr <$> [VStr "Arsenal"; VStr "2020_2021"])
  = "Arsenal_2020_2021" ∧
  PyStr.join "_" (py_str float_repr <$> [VStr "a"; VNone; VInt 3; VBool true])
  = "a_None_3_True" ∧
  PyStr.join "_" (py_str float_repr <$> [VInt 5]) = "5".
Proof.
  intros Hwf _. split_and!.
  - intros Hin. destruct (select_Ok df cols Hin) as (idxs & Hsel & Hidx).
    unfold create_unique_id. rewrite Hsel. simpl.
    eexists. split; [reflexivity|]. split.
    { apply length_rows_set_col. by rewrite length_fmap. }
    intros i Hi. destruct (lookup_lt_is_Some_2 _ _ Hi) as [r Hr].
    exists ((λ j, r !!! j) <$> idxs). split.
    + apply Forall2_fmap_r. eapply list.Forall2_impl; [exact Hidx|].
      intros c j Hj. simpl. apply cell_Some. exists r, j. split_and!; [done..|].
      apply col_index_Some in Hj as [_ Hj].
      pose proof (wf_lookup _ _ _ Hwf Hr).
      apply list_lookup_lookup_total_lt. lia.
    + apply cell_set_col_eq; [done..|].
      rewrite list_lookup_fmap, Hr. simpl. unfold join_row.
      by rewrite <- list_fmap_compose.
  - intros Hex. destruct (select_Raise df cols Hex) as (c & Hin & Hmiss & Hsel).
    exists c. split_and!; [done..|].
    unfold create_unique_id. by rewrite Hsel.
  - done.
  - done.
  - by vm_compute.
  - by vm_compute.
  - by vm_compute.
  - by vm_compute.
  - by vm_compute.
  - by vm_compute.
Qed.

(** *** convert_to_numeric *)

(** A listed label that the loop can convert: it is a column of the table
    and no two columns bear it. *)
Lemma length_to_numeric (texts : list string) :
  length (to_numeric texts) = length texts.
Proof.
  unfold to_numeric. destruct (forallb _ _); by rewrite !length_fmap.
Qed.

Lemma to_numeric_lookup (texts : list string) (i : nat) (t : string) :
  texts !! i = Some t →
  ∃ v, to_numeric texts !! i = Some v ∧ coerced (Literal.parse t) v.
Proof.
  intros Ht. unfold to_numeric.
  destruct (forallb _ _) eqn:Hall; rewrite !list_lookup_fmap, Ht; simpl;
    eexists; (split; [reflexivity|]).
  - rewrite forallb_forall in Hall.
    assert (Hin : In (Literal.parse t) (Literal.parse <$> texts)).
    { apply in_map, list_elem_of_In. by eapply list_elem_of_lookup_2. }
    specialize (Hall _ Hin).
    destruct (Literal.parse t) as [[z|x]|]; simpl; auto; discriminate.
  - destruct (Literal.parse t) as [[z|x]|]; simpl; auto.
Qed.

Lemma convert_col_Ok (df : DataFrame) (col : string) :
  wf df → col ∈ columns df → ¬ duplicated col (columns df) →
  ∃ df', convert_col float_repr df col = Ok df' ∧ wf df' ∧
    columns df' = columns df ∧ length (rows df') = length (rows df) ∧
    (∀ i c, c ≠ col → cell df' i c = cell df i c) ∧
    (∀ i v, cell df i col = Some v →
       ∃ v', cell df' i col = Some v' ∧
             coerced (Literal.parse (numeric_text float_repr v)) v').
Proof.
  intros Hwf Hin Hdup.
  destruct (get_series_Ok _ _ Hin Hdup) as (vs & Hser & Hvs).
  pose proof (get_col_length _ _ _ Hvs) as Hlen.
  unfold convert_col. rewrite Hser. simpl. eexists. split; [reflexivity|].
  assert (Hlen' : length (to_numeric (numeric_text float_repr <$> vs))
                  = length (rows df))
    by (by rewrite length_to_numeric, length_fmap).
  split_and!.
  - by apply wf_set_col.
  - by apply columns_set_col_in.
  - by apply length_rows_set_col.
  - intros i c Hne. by apply cell_set_col_ne.
  - intros i v Hv.
    rewrite <- (get_col_lookup _ _ _ i Hwf Hvs) in Hv.
    destruct (to_numeric_lookup (numeric_text float_repr <$> vs) i
                (numeric_text float_repr v)) as (v' & Hv' & Hco).
    { by rewrite list_lookup_fmap, Hv. }
    exists v'. split; [|done]. apply cell_set_col_eq; [done| |done].
    rewrite <- Hlen. by eapply lookup_lt_Some.
Qed.

Lemma convert_to_numeric_Ok (df : DataFrame) (cols : list string) :
  wf df →
  Forall (λ c, c ∈ columns df ∧ ¬ duplicated c (columns df)) cols →
  ∃ df', convert_to_numeric float_repr df cols = Ok df' ∧ wf df' ∧
    columns df' = columns df ∧ length (rows df') = length (rows df) ∧
    (∀ i c, c ∉ cols → cell df' i c = cell df i c) ∧
    (NoDup cols → ∀ i c v, c ∈ cols → cell df i c = Some v →
       ∃ v', cell df' i c = Some v' ∧
             coerced (Literal.parse (numeric_text float_repr v)) v').
Proof.
  intros Hwf Hin. revert df Hwf Hin.
  induction cols as [|col cols IH]; intros df Hwf Hin.
  - exists df. split_and!; try done.
    intros _ i c v Hc. by apply elem_of_nil in Hc.
  - apply list.Forall_cons in Hin as [[Hcol Hdup] Hin].
    destruct (convert_col_Ok df col Hwf Hcol Hdup)
      as (df1 & H1 & Hwf1 & Hcols1 & Hlen1 & Hne1 & Heq1).
    destruct (IH df1 Hwf1) as (df' & H' & Hwf' & Hcols' & Hlen' & Hne' & Heq').
    { by rewrite Hcols1. }
    exists df'. simpl. rewrite H1. simpl. split_and!; try done; try congruence.
    + intros i c Hc. apply not_elem_of_cons in Hc as [Hc1 Hc2].
      rewrite Hne' by done. by apply Hne1.
    + intros Hnd i c v Hc Hv. apply list.NoDup_cons in Hnd as [Hfresh Hnd].
      apply elem_of_cons in Hc as [->|Hc].
      * destruct (Heq1 i v Hv) as (v' & Hv' & Hco).
        exists v'. split; [|done]. by rewrite Hne'.
      * apply (Heq' Hnd i c v Hc). rewrite Hne1; [done|].
        intros ->. done.
Qed.

Lemma convert_to_numeric_wf (df df' : DataFrame) (cols : list string) :
  wf df → convert_to_numeric float_repr df cols = Ok df' → wf df'.
Proof.
  revert df. induction cols as [|col cols IH]; intros df Hwf H; simpl in H.
  - by injection H as <-.
  - apply bind_Ok in H as (df1 & H1 & H). apply (IH df1); [|done].
    unfold convert_col in H1. apply bind_Ok in H1 as (vs & _ & [= <-]).
    by apply wf_set_col.
Qed.

Lemma create_unique_id_wf (df df' : DataFrame) (cols : list string)
    (new_column : string) :
  wf df → create_unique_id float_repr df cols new_column = Ok df' → wf df'.
Proof.
  intros Hwf H. unfold create_unique_id in H.
  apply bind_Ok in H as (idxs & _ & [= <-]). by apply wf_set_col.
Qed.

Lemma convert_column_names_wf (df : DataFrame) (m : gmap string string) :
  wf df → wf (convert_column_names df m).
Proof.
  unfold wf, convert_column_names. simpl. by rewrite length_fmap.
Qed.

(** The loop stops at the first listed label it cannot convert: with a
    missing-column error for a label that is no column, with an attribute
    error for a label that several columns bear. *)
Lemma convert_to_numeric_Raise (df : DataFrame) (good : list string)
    (c : string) (rest : list string) :
  wf df →
  Forall (λ c, c ∈ columns df ∧ ¬ duplicated c (columns df)) good →
  (c ∉ columns df →
   convert_to_numeric float_repr df (good ++ c :: rest)%list = Raise (KeyError c)) ∧
  (duplicated c (columns df) →
   convert_to_numeric float_repr df (good ++ c :: rest)%list = Raise AttributeError).
Proof.
  intros Hwf Hgood. revert df Hwf Hgood.
  induction good as [|col good IH]; intros df Hwf Hgood.
  - simpl. unfold convert_col. split; intros H.
    + by rewrite get_series_missing.
    + by rewrite get_series_duplicated.
  - apply list.Forall_cons in Hgood as [[Hcol Hdup] Hgood].
    destruct (convert_col_Ok df col Hwf Hcol Hdup)
      as (df1 & H1 & Hwf1 & Hcols1 & _).
    destruct (IH df1 Hwf1) as [Hmiss Hdupl].
    { by rewrite Hcols1. }
    simpl. rewrite H1. simpl. rewrite Hcols1 in Hmiss, Hdupl. done.
Qed.

(** C4, as amended: when every listed label is a column of the table, and
    the only one bearing that label, [convert_to_numeric] does not raise:
    every cell of a listed column has its text stripped of commas and of
    surrounding whitespace (Unicode whitespace included) and is then
    parsed, a text that does not parse becoming null: the text 1,234,
    with or without blanks, tabs, line ends or a no-break space around
    it, gives 1234; the texts N/A, the empty text and a text with a blank
    inside the number give null.  The first listed label that is no
    column raises a missing-column error, and one that several columns
    bear raises an attribute error. *)
Theorem convert_to_numeric_coerces (df : DataFrame) (cols : list string) :
  wf df →
  (Forall (λ c, c ∈ columns df ∧ ¬ duplicated c (columns df)) cols →
     ∃ df', convert_to_numeric float_repr df cols = Ok df' ∧
       columns df' = columns df ∧ length (rows df') = length (rows df) ∧
       (∀ i c, c ∉ cols → cell df' i c = cell df i c) ∧
       (NoDup cols → ∀ i c v, c ∈ cols → cell df i c = Some v →
          ∃ v', cell df' i c = Some v' ∧
                coerced (Literal.parse (numeric_text float_repr v)) v')) ∧
  (∀ (good : list string) (c : string) (rest : list string),
     cols = (good ++ c :: rest)%list →
     Forall (λ c, c ∈ columns df ∧ ¬ duplicated c (columns df)) good →
     (c ∉ columns df →
      convert_to_numeric float_repr df cols = Raise (KeyError c)) ∧
     (duplicated c (columns df) →
      convert_to_numeric float_repr df cols = Raise AttributeError)) ∧
  Literal.parse <$>
    (numeric_text float_repr <$>
       [VStr "1,234"; VStr "  1,234 "; VStr Samples.tab_12_newline;
        VStr Samples.nbsp_padded_1234; VStr Samples.wide_padded_7;
        VStr "1,2,3"; VInt 5; VStr "-40"])
  = [Some (Literal.PInt 1234); Some (Literal.PInt 1234);
     Some (Literal.PInt 12); Some (Literal.PInt 1234);
     Some (Literal.PInt 7); Some (Literal.PInt 123); Some (Literal.PInt 5);
     Some (Literal.PInt (-40))] ∧
  match Literal.parse (numeric_text float_repr (VStr " -1,000.5 ")) with
  | Some (Literal.PFloat x) => Num.to_Q x
  | _ => None
  end = Some (-2001 # 2)%Q ∧
  Literal.parse <$>
    (numeric_text float_repr <$>
       [VStr "N/A"; VStr ""; VStr "   "; VStr "1 234"; VStr "12a"; VNone;
        VNA; VBool true])
  = [None; None; None; None; None; None; None; None] ∧
  Literal.parse (numeric_text float_repr (VFloat NaN))
  = Some (Literal.PFloat NaN) ∧
  PyStr.strip <$> ["  a b  "; "a"; ""; "  "; Samples.nbsp_padded_1234]
  = ["a b"; "a"; ""; ""; "1,234"] ∧
  to_numeric (numeric_text float_repr <$> [VStr " 1,234"; VStr "7 "])
  = [VInt 1234; VInt 7] ∧
  to_numeric (numeric_text float_repr <$> [VStr "1,234 "; VStr "N/A"; VStr ""])
  = [VFloat (Num.of_Z 1234); VFloat NaN; VFloat NaN].
Proof.
  intros Hwf. split_and!.
  - intros Hin.
    destruct (convert_to_numeric_Ok df cols Hwf Hin)
      as (df' & H & _ & Hcols & Hlen & Hne & Hcell).
    by exists df'.
  - intros good c rest -> Hgood. by apply convert_to_numeric_Raise.
  - by vm_compute.
  - by vm_compute.
  - by vm_compute.
  - by vm_compute.
  - by vm_compute.
  - by vm_compute.
  - by vm_compute.
Qed.

End with_float_repr.

Lemma create_unique_id_joins_witness :
  (∃ df', create_unique_id Samples.float_repr Samples.season_keyed
            ["Squad"; "season"] "unique_ID" = Ok df' ∧
          cell df' 0 "unique_ID" = Some (VStr "Arsenal_2020_2021")) ∧
  (∃ df', create_unique_id Samples.float_repr Samples.rank_keyed
            ["season"; "Rank"] "Season_Rank" = Ok df' ∧
          cell df' 0 "Season_Rank" = Some (VStr "2020_2021_1") ∧
          cell df' 1 "Season_Rank" = Some (VStr "2020_2021_None")).
Proof.
  split.
  - assert (Hwf : wf Samples.season_keyed) by (repeat constructor).
    assert (Hnd : NoDup (columns Samples.season_keyed))
      by (apply (bool_decide_unpack _); by vm_compute).
    destruct (proj1 (create_unique_id_joins Samples.float_repr
                       Samples.season_keyed ["Squad"; "season"] "unique_ID"
                       Hwf Hnd))
      as (df' & Hok & _ & Hcell).
    { repeat constructor. }
    exists df'. split; [exact Hok|].
    destruct (Hcell 0%nat) as (vs & Hvs & ->); [simpl; lia|].
    inversion Hvs as [|? v1 ? vs1 H1 Hvs1]; subst.
    inversion Hvs1 as [|? v2 ? vs2 H2 Hvs2]; subst.
    inversion Hvs2; subst.
    vm_compute in H1, H2. by simplify_eq.
  - assert (Hwf : wf Samples.rank_keyed) by (repeat constructor).
    assert (Hnd : NoDup (columns Samples.rank_keyed))
      by (apply (bool_decide_unpack _); by vm_compute).
    destruct (proj1 (create_unique_id_joins Samples.float_repr
                       Samples.rank_keyed ["season"; "Rank"] "Season_Rank"
                       Hwf Hnd))
      as (df' & Hok & _ & Hcell).
    { repeat constructor. }
    exists df'. split; [exact Hok|]. split.
    + destruct (Hcell 0%nat) as (vs & Hvs & ->); [simpl; lia|].
      inversion Hvs as [|? v1 ? vs1 H1 Hvs1]; subst.
      inversion Hvs1 as [|? v2 ? vs2 H2 Hvs2]; subst.
      inversion Hvs2; subst.
      vm_compute in H1, H2. by simplify_eq.
    + destruct (Hcell 1%nat) as (vs & Hvs & ->); [simpl; lia|].
      inversion Hvs as [|? v1 ? vs1 H1 Hvs1]; subst.
      inversion Hvs1 as [|? v2 ? vs2 H2 Hvs2]; subst.
      inversion Hvs2; subst.
      vm_compute in H1, H2. by simplify_eq.
Defined.

Lemma convert_to_numeric_coerces_witness :
  ∃ df', convert_to_numeric Samples.float_repr Samples.season_raw ["Attendance"]
         = Ok df' ∧
         columns df' = columns Samples.season_raw ∧
         cell df' 0 "Attendance" = Some (VFloat (Num.of_Z 1234)) ∧
         cell df' 1 "Attendance" = Some (VFloat NaN) ∧
         cell df' 0 "Squad" = Some (VStr "Club Crest Manchester City").
Proof.
  assert (Hwf : wf Samples.season_raw) by (repeat constructor).
  destruct (proj1 (convert_to_numeric_coerces Samples.float_repr
                     Samples.season_raw ["Attendance"] Hwf))
    as (df' & Hok & Hcols & Hlen & _).
  { constructor; [split|constructor]; apply (bool_decide_unpack _);
      by vm_compute. }
  exists df'. split; [exact Hok|]. split; [exact Hcols|].
  vm_compute in Hok. injection Hok as <-. by vm_compute.
Defined.

(** C4, as stated, fails: a listed column that the table does not have
    makes [convert_to_numeric] raise. *)
Lemma convert_to_numeric_raises_on_missing_column :
  convert_to_numeric Samples.float_repr Samples.season_keyed ["Attendance"]
  = Raise (KeyError "Attendance").
Proof. by vm_compute. Qed.

End DataUtilsFacts.

(** ** src/wsl_utils.py: properties *)

Module WslUtilsFacts.
Import DataUtils WslConfig WslUtils FrameFacts DataUtilsFacts.

(** *** nationality_group *)

(** C6: a row that carries a nationality and a euro flag gets exactly one of
    the three labels: English when the nationality is England, whatever the
    euro flag is (and even when the row has none); otherwise European
    (excl. Eng) exactly when the euro flag equals 1, and Non-European in
    every remaining case.  ([pd.NA] has no truth value and is excluded; the
    cleaning never puts it in either field.) *)
Theorem nationality_group_classifies (row : gmap string value) :
  (row !! "Nationality" = Some (VStr "England") →
   nationality_group row = Ok "English") ∧
  (∀ nationality euro_flag,
     row !! "Nationality" = Some nationality →
     row !! "euro_flag" = Some euro_flag →
     nationality ≠ VNA → euro_flag ≠ VNA →
     ∃ g, nationality_group row = Ok g ∧
          (g = "English" ∨ g = "European (excl. Eng)" ∨ g = "Non-European") ∧
          (g = "English" ↔ nationality = VStr "England") ∧
          (g = "European (excl. Eng)" ↔
             nationality ≠ VStr "England" ∧ eq_int euro_flag 1 = Ok true) ∧
          (g = "Non-European" ↔
             nationality ≠ VStr "England" ∧ eq_int euro_flag 1 = Ok false)).
Proof.
  split.
  - intros H. unfold nationality_group, field. by rewrite H.
  - intros nationality euro_flag Hn He Hnna Hena.
    unfold nationality_group, field. rewrite Hn. simpl.
    assert (Heq : ∃ b, eq_str nationality "England" = Ok b ∧
                       (b = true ↔ nationality = VStr "England")).
    { destruct nationality as [s| | | | |]; simpl; try (eexists; split; [reflexivity|]; by split).
      - exists (bool_decide (s = "England")). split; [done|].
        rewrite bool_decide_eq_true. split; [by intros ->|by intros [= ->]].
      - done. }
    destruct Heq as (b & -> & Hb). simpl. destruct b.
    + exists "English". pose proof (proj1 Hb eq_refl) as ->.
      split_and!; try done; auto; split; try done; by intros [? _].
    + assert (Hne : nationality ≠ VStr "England").
      { intros H. apply Hb in H. discriminate. }
      rewrite He. simpl.
      assert (Hflag : ∃ b, eq_int euro_flag 1 = Ok b).
      { destruct euro_flag; simpl; eauto. done. }
      destruct Hflag as [b Hflag]. rewrite Hflag. simpl. destruct b.
      * exists "European (excl. Eng)".
        split_and!; try done; auto; split; try done; by intros [_ ?].
      * exists "Non-European".
        split_and!; try done; auto; split; try done; by intros [_ ?].
Qed.

Lemma nationality_group_classifies_witness :
  ∃ g, nationality_group {["Nationality" := VStr "France"; "euro_flag" := VInt 1]}
       = Ok g ∧ g = "European (excl. Eng)".
Proof.
  destruct (proj2 (nationality_group_classifies
                     {["Nationality" := VStr "France"; "euro_flag" := VInt 1]})
              (VStr "France") (VInt 1))
    as (g & Hg & _ & _ & Heuro & _); [done..|].
  exists g. split; [exact Hg|]. apply Heuro. by split.
Defined.

(** *** The nationality groups of the cleaned table *)

Lemma col_index_cons (c x : string) (cols : list string) :
  col_index c (x :: cols)
  = if decide (x = c) then Some 0%nat else S <$> col_index c cols.
Proof.
  unfold col_index. simpl. destruct (decide (x = c)); [done|].
  by destruct (list_find _ cols) as [[]|].
Qed.

(** The row handed to [nationality_group] holds the cells of the table. *)
Lemma row_dict_lookup (cols : list string) (r : list value) (c : string) :
  row_dict cols r !! c = col_index c cols ≫= (r !!.).
Proof.
  unfold row_dict. revert r.
  induction cols as [|x cols IH]; intros [|v r]; simpl; try done.
  - by destruct (col_index c (x :: cols)).
  - rewrite col_index_cons. destruct (decide (x = c)) as [->|Hne].
    + by rewrite lookup_insert_eq.
    + rewrite lookup_insert_ne, IH by done.
      by destruct (col_index c cols).
Qed.

Lemma row_dict_cell (df : DataFrame) (i : nat) (r : list value) (c : string) :
  rows df !! i = Some r → row_dict (columns df) r !! c = cell df i c.
Proof.
  intros Hr. rewrite row_dict_lookup. unfold cell. rewrite Hr. simpl.
  by destruct (col_index c (columns df)).
Qed.

Lemma euro_countries_fused :
  "BelgiumNorway" ∈ EURO_COUNTRIES ∧
  ("Belgium" ∉ EURO_COUNTRIES) ∧ ("Norway" ∉ EURO_COUNTRIES).
Proof.
  split_and!; apply (bool_decide_unpack _); by vm_compute.
Qed.

(** Step 6 on a table whose cleaned country token is Belgium or Norway. *)
Lemma nationality_groups_fused (df df' : DataFrame) (i : nat) (token : string) :
  wf df → nationality_groups df = Ok df' →
  token = "Belgium" ∨ token = "Norway" →
  cell df' i "Nationality" = Some (VStr token) →
  cell df' i "euro_flag" = Some (VInt 0) ∧
  cell df' i "group" = Some (VStr "Non-European").
Proof.
  intros Hwf H Htoken Hcell. unfold nationality_groups in H.
  apply bind_Ok in H as (vs & Hvs & H).
  apply bind_Ok in H as (flags & Hflags & H).
  apply bind_Ok in H as (groups & Hgroups & [= <-]).
  apply mapM_Ok in Hflags. apply mapM_Ok in Hgroups.
  pose proof (get_col_length _ _ _ Hvs) as Hlen.
  assert (Hlenf : length flags = length (rows df)).
  { rewrite <- Hlen. symmetry. by eapply Forall2_length. }
  set (df1 := set_col df "euro_flag" flags) in *.
  assert (Hwf1 : wf df1) by by apply wf_set_col.
  assert (Hleng : length groups = length (rows df1)).
  { symmetry. by eapply Forall2_length. }
  rewrite cell_set_col_ne in Hcell by done.
  unfold df1 in Hcell. rewrite cell_set_col_ne in Hcell by done.
  assert (Hi : (i < length (rows df))%nat).
  { apply cell_Some in Hcell as (r & _ & Hr & _). by eapply lookup_lt_Some. }
  rewrite <- (get_col_lookup _ _ _ i Hwf Hvs) in Hcell.
  destruct (Forall2_lookup_l _ _ _ _ _ Hflags Hcell) as (f & Hf & Hfv).
  assert (f = VInt 0) as ->.
  { destruct Htoken as [-> | ->]; vm_compute in Hfv; by injection Hfv as <-. }
  assert (Hflag1 : cell df1 i "euro_flag" = Some (VInt 0)).
  { by apply cell_set_col_eq. }
  assert (Hnat1 : cell df1 i "Nationality" = Some (VStr token)).
  { unfold df1. rewrite cell_set_col_ne by done.
    by rewrite <- (get_col_lookup _ _ _ i Hwf Hvs). }
  assert (Hi1 : (i < length (rows df1))%nat).
  { unfold df1. by rewrite length_rows_set_col. }
  destruct (lookup_lt_is_Some_2 _ _ Hi1) as [r1 Hr1].
  destruct (Forall2_lookup_l _ _ _ _ _ Hgroups Hr1) as (g & Hg & Hgv).
  split.
  - by rewrite cell_set_col_ne.
  - rewrite (cell_set_col_eq df1 "group" groups i g) by done.
    f_equal. unfold nationality_group, field in Hgv.
    rewrite !(row_dict_cell df1 i r1) in Hgv by done.
    rewrite Hnat1, Hflag1 in Hgv.
    destruct Htoken as [-> | ->]; vm_compute in Hgv; by injection Hgv as <-.
Qed.

Section with_float_repr.
Variable float_repr : Qc → string.

(** C5: the allow-list holds the fused entry BelgiumNorway and neither
    Belgium nor Norway, so every row of the cleaned nationality table
    whose country token is Belgium or Norway has the euro flag 0 and the
    group Non-European. *)
Theorem belgium_norway_non_european (df df' : DataFrame)
    (start_year end_year : Z) (i : nat) (token : string) :
  wf df →
  res (process_nationality_data float_repr (Some df) start_year end_year)
  = Ok (Some df') →
  token = "Belgium" ∨ token = "Norway" →
  cell df' i "Nationality" = Some (VStr token) →
  "BelgiumNorway" ∈ EURO_COUNTRIES ∧
  (token ∉ EURO_COUNTRIES) ∧
  cell df' i "euro_flag" = Some (VInt 0) ∧
  cell df' i "group" = Some (VStr "Non-European").
Proof.
  intros Hwf H Htoken Hcell.
  destruct euro_countries_fused as (Hfused & Hbe & Hno).
  split; [done|]. split; [by destruct Htoken as [-> | ->]|].
  unfold process_nationality_data in H.
  destruct (empty df) eqn:Hempty.
  { simpl in H. injection H as <-.
    apply cell_Some in Hcell as (r & j & Hr & Hj & _).
    unfold empty in Hempty. apply bool_decide_eq_true_1 in Hempty as [Hc|Hc].
    - rewrite Hc in Hj. discriminate.
    - rewrite Hc in Hr. discriminate. }
  apply res_bind_Ok in H as (_ & _ & H).
  apply res_bind_Ok in H as (df1 & H1 & H).
  apply res_bind_Ok in H as (df2 & H2 & H).
  apply res_bind_Ok in H as (df3 & H3 & H).
  apply res_bind_Ok in H as (df4 & H4 & H).
  apply res_bind_Ok in H as (df5 & H5 & H).
  apply res_bind_Ok in H as (_ & _ & H).
  rewrite res_lift in H1, H2, H3, H4, H5.
  simpl in H. injection H as <-.
  apply bind_Ok in H1 as (vs1 & _ & [= <-]).
  apply bind_Ok in H2 as (vs2 & _ & H2).
  apply bind_Ok in H2 as (vs2' & _ & H2).
  apply bind_Ok in H2 as (vs2'' & _ & [= <-]).
  apply create_unique_id_wf in H3.
  2:{ unfold set_col_scalar. apply wf_set_col, convert_column_names_wf.
      by do 2 apply wf_set_col. }
  apply convert_to_numeric_wf in H4; [|done].
  by apply (nationality_groups_fused df4 df5 i token).
Qed.

End with_float_repr.

Lemma belgium_norway_non_european_witness :
  cell Samples.nationality_cleaned 1 "euro_flag" = Some (VInt 0) ∧
  cell Samples.nationality_cleaned 1 "group" = Some (VStr "Non-European") ∧
  cell Samples.nationality_cleaned 2 "euro_flag" = Some (VInt 0) ∧
  cell Samples.nationality_cleaned 2 "group" = Some (VStr "Non-European").
Proof.
  assert (Hwf : wf Samples.nationality_raw) by (repeat constructor).
  assert (Hrun : res (process_nationality_data Samples.float_repr
                        (Some Samples.nationality_raw) 2020 2021)
                 = Ok (Some Samples.nationality_cleaned)) by (by vm_compute).
  destruct (belgium_norway_non_european Samples.float_repr
              Samples.nationality_raw Samples.nationality_cleaned
              2020 2021 1 "Belgium" Hwf Hrun) as (_ & _ & Hflag & Hgroup);
    [by left|by vm_compute|].
  destruct (belgium_norway_non_european Samples.float_repr
              Samples.nationality_raw Samples.nationality_cleaned
              2020 2021 2 "Norway" Hwf Hrun) as (_ & _ & Hflag' & Hgroup');
    [by right|by vm_compute|].
  exact (conj Hflag (conj Hgroup (conj Hflag' Hgroup'))).
Defined.

(** *** The guard against empty input *)

(** C8: given no table, or a table without rows, both cleaners print the
    skip notice and return their input as it is; they do not raise and add
    no row. *)
Theorem empty_input_is_skipped (float_repr : Qc → string)
    (df : option DataFrame) (start_year end_year : Z) :
  (df = None ∨ ∃ d, df = Some d ∧ rows d = []) →
  process_wsl_data float_repr df start_year end_year
  = IO [skip_notice start_year end_year] (Ok df) ∧
  process_nationality_data float_repr df start_year end_year
  = IO [skip_notice start_year end_year] (Ok df).
Proof.
  intros [->|(d & -> & Hrows)].
  - by split.
  - assert (Hempty : empty d = true).
    { unfold empty. apply bool_decide_eq_true_2. by right. }
    unfold process_wsl_data, process_nationality_data. rewrite Hempty.
    by split.
Qed.

Lemma empty_input_is_skipped_witness :
  process_wsl_data Samples.float_repr (Some (mkDF ["Squad"; "Attendance"] []))
    2020 2021
  = IO ["Skipped cleaning for 2020_2021 (empty or missing)"]
       (Ok (Some (mkDF ["Squad"; "Attendance"] []))) ∧
  process_nationality_data Samples.float_repr
    (Some (mkDF ["Squad"; "Attendance"] [])) 2020 2021
  = IO ["Skipped cleaning for 2020_2021 (empty or missing)"]
       (Ok (Some (mkDF ["Squad"; "Attendance"] []))).
Proof.
  apply (empty_input_is_skipped Samples.float_repr
           (Some (mkDF ["Squad"; "Attendance"] [])) 2020 2021).
  right. by eexists.
Defined.

End WslUtilsFacts.

(** ** The per-club extrapolation *)

Module ForecastFacts.
Import Num Modelling FrameFacts.

Lemma set_dummies_other (cols : list string) (club key : string)
    (row : gmap string value) :
  key ∉ cols → set_dummies cols club row !! key = row !! key.
Proof.
  unfold set_dummies. revert row.
  induction cols as [|c cols IH]; intros row Hkey; [done|].
  apply not_elem_of_cons in Hkey as [Hne Hkey]. simpl.
  rewrite IH by done. by rewrite lookup_insert_ne.
Qed.

Lemma club_cols_prefix (model_df : DataFrame) (c : string) :
  c ∈ club_cols model_df → PyStr.startswith "Club_" c = true.
Proof. unfold club_cols. rewrite list_elem_of_filter. by intros [? _]. Qed.

Lemma carry_features_Ok (cols : list string) (last_row : list value)
    (feature_cols : list string) (row : gmap string value) :
  Forall (λ col, col ∈ cols) feature_cols →
  ∃ row', carry_features cols last_row feature_cols row = Ok row' ∧
          ∀ key, key ∉ feature_cols → row' !! key = row !! key.
Proof.
  revert row. induction feature_cols as [|col rest IH]; intros row Hin; simpl.
  - by exists row.
  - apply list.Forall_cons in Hin as [Hcol Hin].
    destruct (col_index_is_Some _ _ Hcol) as [j Hj].
    unfold row_get. rewrite Hj. simpl.
    destruct (IH (<[col := last_row !!! j]> row) Hin) as (row' & Hrow' & Hkeep).
    exists row'. split; [done|]. intros key Hkey.
    apply not_elem_of_cons in Hkey as [Hne Hkey].
    rewrite Hkeep by done. by rewrite lookup_insert_ne.
Qed.

Lemma set_dummies_lookup (cols : list string) (club key : string)
    (row : gmap string value) :
  key ∈ cols →
  set_dummies cols club row !! key
  = Some (VInt (if bool_decide (key = "Club_" +:+ club) then 1 else 0)).
Proof.
  unfold set_dummies. revert row.
  induction cols as [|c cols IH]; intros row Hkey; [by apply elem_of_nil in Hkey|].
  simpl. destruct (decide (key ∈ cols)) as [Hin|Hnin]; [by apply IH|].
  apply elem_of_cons in Hkey as [->|?]; [|done].
  change (set_dummies cols club
            (<[c:=VInt (if bool_decide (c = "Club_" +:+ club) then 1 else 0)]> row)
          !! c = Some (VInt (if bool_decide (c = "Club_" +:+ club) then 1 else 0))).
  rewrite set_dummies_other by done. apply lookup_insert_eq.
Qed.

Lemma null_features_lookup (feature_cols : list string) (key : string)
    (row : gmap string value) :
  null_features feature_cols row !! key
  = if decide (key ∈ feature_cols) then Some (VFloat NaN) else row !! key.
Proof.
  unfold null_features. revert row.
  induction feature_cols as [|c cols IH]; intros row.
  - destruct (decide (key ∈ [])) as [H|_]; [by apply elem_of_nil in H|done].
  - cbn [foldl]. rewrite IH.
    destruct (decide (key ∈ cols)) as [Hin|Hnin];
      destruct (decide (key ∈ c :: cols)) as [Hin'|Hnin']; try done.
    + destruct Hnin'. by right.
    + apply elem_of_cons in Hin' as [->|?]; [|done]. apply lookup_insert_eq.
    + apply not_elem_of_cons in Hnin' as [Hne _]. by apply lookup_insert_ne.
Qed.

(** A club without any row, in a table with a Capacity column: the last
    capacity is read from an empty column. *)
Lemma sparse_row_raises_without_rows (model_df : DataFrame)
    (feature_cols : list string) (target_col club : string) (c : DataFrame)
    (year : Z) :
  rows c = [] → "Capacity" ∈ columns c →
  sparse_row model_df feature_cols target_col club c year = Raise IndexError.
Proof.
  intros Hrows Hcap. unfold sparse_row, has_col.
  rewrite (bool_decide_eq_true_2 _ Hcap).
  destruct (get_col_Ok _ _ Hcap) as [vs Hvs].
  pose proof (get_col_length _ _ _ Hvs) as Hlen.
  rewrite Hvs, Hrows in *. destruct vs; [done|discriminate].
Qed.

(** The row of a club with too little history, when it can be built: the
    prediction, the target and every feature column are null; a dummy
    column and Capacity keep their value only when they are no feature
    column. *)
Lemma sparse_row_fields (model_df : DataFrame) (feature_cols : list string)
    (target_col club : string) (c : DataFrame) (year : Z)
    (row : gmap string value) :
  sparse_row model_df feature_cols target_col club c year = Ok row →
  row !! "Predicted_Attendance" = Some (VFloat NaN) ∧
  row !! target_col = Some (VFloat NaN) ∧
  (∀ col, col ∈ feature_cols → row !! col = Some (VFloat NaN)) ∧
  (∀ d, d ∈ club_cols model_df → d ∉ feature_cols → d ≠ target_col →
     row !! d = Some (VInt (if bool_decide (d = "Club_" +:+ club) then 1 else 0))) ∧
  ("Capacity" ∉ feature_cols → target_col ≠ "Capacity" →
   "Capacity" ∉ columns c → row !! "Capacity" = Some (VFloat NaN)) ∧
  ("Capacity" ∉ feature_cols → target_col ≠ "Capacity" →
   ∀ vs v, get_col c "Capacity" = Ok vs → list.last vs = Some v →
           row !! "Capacity" = Some v).
Proof.
  unfold sparse_row. intros H.
  apply bind_Ok in H as (capacity & Hcap & [= <-]).
  split_and!.
  - rewrite null_features_lookup. case_decide; [done|].
    destruct (decide (target_col = "Predicted_Attendance")) as [->|Hne].
    + apply lookup_insert_eq.
    + rewrite lookup_insert_ne by done. apply lookup_insert_eq.
  - rewrite null_features_lookup. case_decide; [done|]. apply lookup_insert_eq.
  - intros col Hcol. rewrite null_features_lookup. by rewrite decide_True.
  - intros d Hd Hnf Hnt. rewrite null_features_lookup, decide_False by done.
    pose proof (club_cols_prefix _ _ Hd) as Hpre.
    rewrite !lookup_insert_ne; [by apply set_dummies_lookup|..];
      try done; by intros <-.
  - intros Hnf Hnt Hnc. rewrite null_features_lookup, decide_False by done.
    rewrite !lookup_insert_ne by done.
    unfold has_col in Hcap. rewrite (bool_decide_eq_false_2 _ Hnc) in Hcap.
    injection Hcap as <-. apply lookup_insert_eq.
  - intros Hnf Hnt vs v Hvs Hv. rewrite null_features_lookup, decide_False by done.
    rewrite !lookup_insert_ne by done.
    unfold has_col in Hcap.
    rewrite (bool_decide_eq_true_2 _ (get_col_in _ _ _ Hvs)) in Hcap.
    rewrite Hvs in Hcap. simpl in Hcap. unfold iloc_last in Hcap.
    rewrite Hv in Hcap. injection Hcap as <-. apply lookup_insert_eq.
Qed.

(** *** Ascending lists *)

Lemma ascending_nil {A} (R : A → A → Prop) : ascending R [].
Proof. intros i j a b _ H. by destruct i. Qed.

Lemma ascending_cons {A} (R : A → A → Prop) (x : A) (l : list A) :
  ascending R (x :: l) ↔ Forall (R x) l ∧ ascending R l.
Proof.
  split.
  - intros H. split.
    + apply list.Forall_forall. intros y Hy.
      apply list_elem_of_lookup in Hy as [j Hj].
      apply (H 0%nat (S j) x y); [lia|done..].
    + intros i j a b Hij Ha Hb. apply (H (S i) (S j) a b); [lia|done..].
  - intros [Hx Hl] [|i] [|j] a b Hij Ha Hb; simplify_eq/=; try lia.
    + eapply (proj1 (list.Forall_forall _ _) Hx). by eapply list_elem_of_lookup_2.
    + apply (Hl i j a b); [lia|done..].
Qed.

(** *** [sort_values] on numbers: the median *)

Lemma insert_sorted_perm (x : num) (l : list num) :
  insert_sorted x l ≡ₚ x :: l.
Proof.
  induction l as [|y l IH]; simpl; [done|].
  destruct (leb x y); [done|]. rewrite IH. apply Permutation_swap.
Qed.

Lemma sort_nums_perm (l : list num) : sort_nums l ≡ₚ l.
Proof.
  unfold sort_nums. induction l as [|x l IH]; simpl; [done|].
  by rewrite insert_sorted_perm, IH.
Qed.

Lemma insert_sorted_ascending (x : num) (l : list num) :
  is_nan x = false → Forall (λ y, is_nan y = false) l →
  ascending (λ a b, leb a b = true) l →
  ascending (λ a b, leb a b = true) (insert_sorted x l).
Proof.
  intros Hx. induction l as [|y l IH]; intros Hl Hasc; simpl.
  - apply ascending_cons. split; [constructor|apply ascending_nil].
  - apply list.Forall_cons in Hl as [Hy Hl].
    apply ascending_cons in Hasc as [Hyl Hasc].
    destruct (leb x y) eqn:Hxy.
    + apply ascending_cons. split.
      * constructor; [done|]. eapply list.Forall_impl; [exact Hyl|].
        intros z Hz. simpl in Hz. by eapply NumFacts.leb_trans.
      * by apply ascending_cons.
    + apply ascending_cons. split; [|by apply IH].
      rewrite insert_sorted_perm. constructor; [|done].
      by apply NumFacts.leb_total.
Qed.

Lemma sort_nums_ascending (l : list num) :
  Forall (λ y, is_nan y = false) l →
  ascending (λ a b, leb a b = true) (sort_nums l).
Proof.
  unfold sort_nums. induction 1 as [|x l Hx Hl IH]; simpl.
  - apply ascending_nil.
  - apply insert_sorted_ascending; [done| |done].
    fold (sort_nums l). by rewrite sort_nums_perm.
Qed.

(** The median is the middle of the values that are not null, put in
    ascending order: the middle one of an odd number, the mean of the two
    middle ones of an even number, nan when there is none. *)
Lemma median_spec (xs : list num) :
  ∃ s, s ≡ₚ filter (λ x, is_nan x = false) xs ∧
       ascending (λ a b, leb a b = true) s ∧
       (s = [] → median xs = NaN) ∧
       (Nat.odd (length s) = true → s !! (length s / 2)%nat = Some (median xs)) ∧
       (s ≠ [] → Nat.even (length s) = true →
        ∃ a b, s !! (length s / 2 - 1)%nat = Some a ∧
               s !! (length s / 2)%nat = Some b ∧
               median xs = div (add a b) (of_Z 2)).
Proof.
  exists (sort_nums (filter (λ x, is_nan x = false) xs)).
  set (s := sort_nums (filter (λ x, is_nan x = false) xs)).
  assert (Hmed : median xs
                 = match length s with
                   | O => NaN
                   | _ => if Nat.even (length s)
                          then div (add (s !!! (length s / 2 - 1)%nat)
                                        (s !!! (length s / 2)%nat)) (of_Z 2)
                          else s !!! (length s / 2)%nat
                   end) by reflexivity.
  split_and!.
  - apply sort_nums_perm.
  - apply sort_nums_ascending. apply list.Forall_forall.
    intros x Hx. by apply list_elem_of_filter in Hx as [? _].
  - intros Hs. rewrite Hmed, Hs. done.
  - intros Hodd. rewrite Hmed.
    destruct (length s) as [|n] eqn:Hn; [done|].
    rewrite <- Nat.negb_odd, Hodd. simpl negb. cbv iota.
    apply list_lookup_lookup_total_lt. rewrite Hn.
    apply Nat.div_lt; lia.
  - intros Hne Heven. rewrite Hmed.
    destruct (length s) as [|n] eqn:Hn; [by destruct s|].
    rewrite Heven.
    assert (Hhalf : (S n / 2 < S n)%nat) by (apply Nat.div_lt; lia).
    eexists _, _. split_and!; [| |reflexivity].
    + apply list_lookup_lookup_total_lt. lia.
    + apply list_lookup_lookup_total_lt. lia.
Qed.

(** *** Growth rates *)

Lemma length_ffill (prev : num) (xs : list num) :
  length (ffill prev xs) = length xs.
Proof.
  revert prev. induction xs as [|x xs IH]; intros prev; simpl; [done|].
  by rewrite IH.
Qed.

Lemma ffill_id (prev : num) (xs : list num) :
  Forall (λ x, is_nan x = false) xs → ffill prev xs = xs.
Proof.
  intros H. revert prev. induction H as [|x xs Hx _ IH]; intros prev; simpl; [done|].
  rewrite Hx. by rewrite IH.
Qed.

(** Forward filling: a value that is not null stays, a null takes the
    value before it. *)
Lemma ffill_lookup (prev : num) (xs : list num) :
  (∀ i t, xs !! i = Some t → is_nan t = false → ffill prev xs !! i = Some t) ∧
  (∀ i, xs !! S i = Some NaN → ffill prev xs !! S i = ffill prev xs !! i) ∧
  (xs !! 0%nat = Some NaN → ffill prev xs !! 0%nat = Some prev).
Proof.
  revert prev. induction xs as [|x xs IH]; intros prev.
  - split_and!; [intros i t H|intros i H|intros H]; done.
  - cbn [ffill]. destruct (IH (if is_nan x then prev else x)) as (IH1 & IH2 & IH3).
    split_and!.
    + intros [|i] t Ht Hnan; simplify_eq/=; [by rewrite Hnan|by apply IH1].
    + intros [|i] Hi; simplify_eq/=.
      * rewrite IH3 by done. done.
      * by apply IH2.
    + intros [= ->]. done.
Qed.

Lemma length_growth_rates (xs : list num) :
  length (growth_rates xs) = length xs.
Proof.
  destruct xs as [|x xs]; [done|]. unfold growth_rates.
  cbn [length]. rewrite length_zip_with. cbn [length]. lia.
Qed.

(** The growth rate of a season is the ratio to the season before, less
    one; the first season has none. *)
Lemma growth_rates_lookup (xs : list num) :
  (xs ≠ [] → growth_rates xs !! 0%nat = Some NaN) ∧
  (∀ i a b, xs !! i = Some a → xs !! S i = Some b →
            growth_rates xs !! S i = Some (sub (div b a) one)).
Proof.
  destruct xs as [|x xs].
  - split; [done|]. intros i a b H. by destruct i.
  - split; [done|]. intros i a b Ha Hb.
    change (zip_with (λ prev cur, sub (div cur prev) one) (x :: xs) xs !! i
            = Some (sub (div b a) one)).
    change (xs !! i = Some b) in Hb.
    rewrite lookup_zip_with, Ha. simpl. by rewrite Hb.
Qed.

Lemma length_pct_change (pad_nulls : bool) (xs : list num) :
  length (pct_change pad_nulls xs) = length xs.
Proof.
  unfold pct_change. rewrite length_growth_rates.
  destruct pad_nulls; [apply length_ffill|done].
Qed.

(** *** [sort_values('Season')] on rows *)

Lemma insert_row_perm (k : Z) (r : list value) (l : list (Z * list value)) :
  insert_row k r l ≡ₚ (k, r) :: l.
Proof.
  induction l as [|[k' r'] l IH]; simpl; [done|].
  destruct (bool_decide (k < k')); [done|]. rewrite IH. apply Permutation_swap.
Qed.

Lemma insert_row_ascending (k : Z) (r : list value)
    (l : list (Z * list value)) :
  ascending (λ p q, p.1 ≤ q.1) l →
  ascending (λ p q, p.1 ≤ q.1) (insert_row k r l).
Proof.
  induction l as [|[k' r'] l IH]; intros Hasc; simpl.
  - apply ascending_cons. split; [constructor|apply ascending_nil].
  - apply ascending_cons in Hasc as [Hl Hasc].
    destruct (bool_decide (k < k')) eqn:Hk.
    + apply bool_decide_eq_true in Hk. apply ascending_cons. split.
      * constructor; [simpl; lia|]. eapply list.Forall_impl; [exact Hl|].
        intros q Hq. simpl in *. lia.
      * by apply ascending_cons.
    + apply bool_decide_eq_false in Hk. apply ascending_cons. split; [|by apply IH].
      rewrite insert_row_perm. constructor; [simpl; lia|done].
Qed.

Lemma sorted_pairs_spec (l : list (Z * list value)) :
  foldr (λ kr acc, insert_row kr.1 kr.2 acc) [] l ≡ₚ l ∧
  ascending (λ p q, p.1 ≤ q.1)
            (foldr (λ kr acc, insert_row kr.1 kr.2 acc) [] l).
Proof.
  induction l as [|[k r] l [IHp IHa]]; simpl.
  - split; [done|apply ascending_nil].
  - split.
    + by rewrite insert_row_perm, IHp.
    + by apply insert_row_ascending.
Qed.

(** The history of a club: the rows of the table whose dummy cell is 1, in
    ascending order of Season, under the labels of the table. *)
Lemma cdf_spec (model_df : DataFrame) (club : string) (c : DataFrame) :
  cdf model_df club = Ok c →
  columns c = columns model_df ∧
  rows c ≡ₚ filter (club_row model_df club) (rows model_df) ∧
  ascending (λ r1 r2, ∃ z1 z2,
               row_get (columns model_df) r1 "Season" ≫= cell_int = Ok z1 ∧
               row_get (columns model_df) r2 "Season" ≫= cell_int = Ok z2 ∧
               z1 ≤ z2) (rows c).
Proof.
  unfold cdf. intros H.
  apply bind_Ok in H as (flags & Hflags & H).
  apply bind_Ok in H as (keys & Hkeys & [= <-]). simpl.
  set (kept := mask_rows ((λ v, col_eq_int v 1) <$> flags) (rows model_df)) in *.
  assert (Hkept : kept = filter (club_row model_df club) (rows model_df)).
  { apply (SplitFacts.mask_rows_filter
             (λ r, row_get (columns model_df) r ("Club_" +:+ club)
                     ≫= (λ v, Ok (col_eq_int v 1)))).
    apply Forall2_fmap_r.
    pose proof (SplitFacts.get_col_row_get _ _ _ Hflags) as Hrows.
    eapply list.Forall2_impl; [exact Hrows|].
    intros r v Hv. simpl. by rewrite Hv. }
  apply mapM_Ok in Hkeys.
  destruct (sorted_pairs_spec (zip keys kept)) as [Hperm Hasc].
  assert (Hlen : length keys = length kept).
  { symmetry. by eapply Forall2_length. }
  split_and!.
  - done.
  - unfold sort_rows. rewrite Hperm, snd_zip by lia. by rewrite Hkept.
  - unfold sort_rows.
    assert (Hkey : Forall (λ p : Z * list value,
                     row_get (columns model_df) p.2 "Season" ≫= cell_int
                     = Ok p.1)
                     (foldr (λ kr acc, insert_row kr.1 kr.2 acc) [] (zip keys kept))).
    { rewrite Hperm. apply list.Forall_forall. intros [k r] Hin.
      apply list_elem_of_lookup in Hin as [i Hi].
      apply lookup_zip_with_Some in Hi as (k' & r' & [= <- <-] & Hk & Hr).
      destruct (Forall2_lookup_l _ _ _ _ _ Hkeys Hr) as (k'' & Hk'' & Hget).
      simpl. by simplify_eq. }
    intros i j r1 r2 Hij H1 H2.
    rewrite list_lookup_fmap in H1, H2.
    destruct (foldr _ _ _ !! i) as [[k1 r1']|] eqn:Hi; simplify_eq/=.
    destruct (foldr _ _ _ !! j) as [[k2 r2']|] eqn:Hj; simplify_eq/=.
    exists k1, k2. split_and!.
    + apply (proj1 (list.Forall_forall _ _) Hkey (k1, r1)).
      by eapply list_elem_of_lookup_2.
    + apply (proj1 (list.Forall_forall _ _) Hkey (k2, r2)).
      by eapply list_elem_of_lookup_2.
    + apply (Hasc i j (k1, r1) (k2, r2) Hij Hi Hj).
Qed.

Lemma wf_cdf (model_df : DataFrame) (club : string) (c : DataFrame) :
  wf model_df → cdf model_df club = Ok c → wf c.
Proof.
  intros Hwf H. destruct (cdf_spec _ _ _ H) as (Hcols & Hperm & _).
  unfold wf. rewrite Hcols, Hperm. apply list.Forall_forall.
  intros r Hr. apply list_elem_of_filter in Hr as [_ Hr].
  by apply (proj1 (list.Forall_forall _ _) Hwf).
Qed.

Lemma mapM_last {A B} (f : A → result B) (l : list A) (l' : list B) (y : B) :
  mapM f l = Ok l' → list.last l' = Some y →
  ∃ x, list.last l = Some x ∧ f x = Ok y.
Proof.
  intros H Hy. apply mapM_Ok in H.
  rewrite last_lookup in Hy.
  destruct (Forall2_lookup_r _ _ _ _ _ H Hy) as (x & Hx & Hfx).
  exists x. split; [|done]. rewrite last_lookup.
  apply Forall2_length in H. by rewrite H.
Qed.

Lemma mapM_to_num_floats (xs : list num) :
  mapM to_num (VFloat <$> xs) = Ok xs.
Proof.
  apply mapM_Ok. apply Forall2_fmap_l, Forall_Forall2_diag, list.Forall_forall.
  done.
Qed.

Section future.
Variable pad_nulls : bool.
Variable model_df : DataFrame.
Variable feature_cols : list string.
Variable target_col : string.

Hypothesis model_wf : wf model_df.
Hypothesis labels_distinct : NoDup (columns model_df).
Hypothesis features_present : Forall (λ col, col ∈ columns model_df) feature_cols.
Hypothesis capacity_present : "Capacity" ∈ columns model_df.
Hypothesis season_no_feature : "Season" ∉ feature_cols.
Hypothesis target_not_season : target_col ≠ "Season".
Hypothesis target_not_prediction : target_col ≠ "Predicted_Attendance".
Hypothesis target_not_growth : target_col ≠ "growth".

(** A row of a club with history carries the year, the running value as
    prediction and no actual value. *)
Lemma regular_row_Ok (club : string) (cols : list string)
    (last_row : list value) (last_att : num) (year : Z) :
  Forall (λ col, col ∈ cols) feature_cols → "Capacity" ∈ cols →
  ∃ row,
    regular_row model_df feature_cols target_col club cols last_row last_att year
    = Ok row ∧
    row !! "Season" = Some (VInt year) ∧
    row !! "Predicted_Attendance" = Some (VFloat last_att) ∧
    row !! target_col = Some (VFloat NaN).
Proof.
  intros Hfeat Hcap. unfold regular_row.
  destruct (carry_features_Ok cols last_row feature_cols
              {["Season" := VInt year]} Hfeat)
    as (row & -> & Hkeep).
  destruct (col_index_is_Some _ _ Hcap) as [j Hj].
  unfold row_get. rewrite Hj. simpl.
  eexists. split; [reflexivity|]. split_and!.
  - rewrite lookup_insert_ne by done.
    rewrite !lookup_insert_ne by done.
    rewrite set_dummies_other.
    + rewrite Hkeep by done. apply lookup_singleton_eq.
    + intros Hin. by apply club_cols_prefix in Hin.
  - rewrite lookup_insert_ne by done. apply lookup_insert_eq.
  - apply lookup_insert_eq.
Qed.

(** The loop multiplies the running value once per year. *)
Lemma forecast_loop_Ok (club : string) (cols : list string)
    (last_row : list value) (median_growth last_att : num) (years : list Z) :
  Forall (λ col, col ∈ cols) feature_cols → "Capacity" ∈ cols →
  ∃ rs,
    forecast_loop model_df feature_cols target_col club cols last_row
      median_growth last_att years = Ok rs ∧
    length rs = length years ∧
    ∀ j year, years !! j = Some year →
      ∃ row, rs !! j = Some row ∧ row !! "Season" = Some (VInt year) ∧
             row !! "Predicted_Attendance"
             = Some (VFloat (Nat.iter (S j)
                               (λ a, mul a (add one median_growth)) last_att)) ∧
             row !! target_col = Some (VFloat NaN).
Proof.
  intros Hfeat Hcap.
  revert last_att. induction years as [|year years IH]; intros last_att.
  - exists []. split_and!; [done..|]. intros j y Hj. by destruct j.
  - destruct (regular_row_Ok club cols last_row
                (mul last_att (add one median_growth)) year Hfeat Hcap)
      as (row & Hrow & Hseason & Hpred & Htarget).
    destruct (IH (mul last_att (add one median_growth)))
      as (rs & Hrs & Hlen & Hrows).
    exists (row :: rs). split_and!.
    { cbn [forecast_loop]. rewrite Hrow. cbn [mbind result_bind].
      by rewrite Hrs. }
    { simpl. by rewrite Hlen. }
    intros [|j] y Hj; simplify_eq/=.
    + by exists row.
    + destruct (Hrows j y Hj) as (row' & Hrow' & Hs & Hp & Ht).
      exists row'. split_and!; [done..| |done].
      rewrite Hp. do 2 f_equal.
      change (Nat.iter (S j) (λ a, mul a (add one median_growth))
                (mul last_att (add one median_growth))
              = Nat.iter (S (S j)) (λ a, mul a (add one median_growth)) last_att).
      by rewrite (Nat.iter_succ_r (S j)).
Qed.

(** C1: for a club with at least two historical rows and [k] years to
    forecast.  The history [c] of the club is made of the rows of the
    table whose dummy cell is 1, in ascending order of Season.  The growth
    rate of a season is the target of that season divided by the target
    of the season before, less one (after forward filling when pandas
    pads nulls), the first season having none.  [m] is the median of the
    growth rates that are not null: the middle one in ascending order, or
    the mean of the two middle ones.  The rows of the club are one per
    future year, in year order, and the row of the [j]-th future year
    predicts [v * (1 + m) ** j], each year compounding from the year
    before, where [v] is the last observed target value of the club; the
    actual value of such a row is null.  These rows are a block of the
    rows the forecast table is built from. *)
Theorem median_growth_compounds (club : string) (c : DataFrame)
    (targets : list num) (v : num) (y k : Z) :
  cdf model_df club = Ok c →
  (2 ≤ length (rows c))%nat →
  get_col c target_col ≫= mapM to_num = Ok targets →
  list.last targets = Some v →
  let filled := if pad_nulls then ffill NaN targets else targets in
  let growth := pct_change pad_nulls targets in
  let m := median growth in
  (columns c = columns model_df ∧
   rows c ≡ₚ filter (club_row model_df club) (rows model_df) ∧
   (∀ r, r ∈ rows model_df →
      row_get (columns model_df) r ("Club_" +:+ club) = Ok (VInt 1) →
      r ∈ rows c) ∧
   (∀ r z, row_get (columns model_df) r ("Club_" +:+ club) = Ok (VInt z) →
      z ≠ 1 → r ∉ rows c) ∧
   (∀ i j zi zj, (i < j)%nat →
      cell c i "Season" = Some (VInt zi) →
      cell c j "Season" = Some (VInt zj) → zi ≤ zj)) ∧
  (length growth = length targets ∧
   growth !! 0%nat = Some NaN ∧
   (∀ i a b, filled !! i = Some a → filled !! S i = Some b →
      growth !! S i = Some (sub (div b a) one)) ∧
   (∀ i a b, filled !! i = Some (Fin a) → filled !! S i = Some (Fin b) →
      a ≠ Q2Qc 0 → growth !! S i = Some (Fin (b / a - Q2Qc 1)%Qc)) ∧
   (∀ i t, targets !! i = Some t → is_nan t = false → filled !! i = Some t) ∧
   (pad_nulls = true → ∀ i, targets !! S i = Some NaN →
      filled !! S i = filled !! i) ∧
   (pad_nulls = false → filled = targets)) ∧
  (∃ s, s ≡ₚ filter (λ x, is_nan x = false) growth ∧
        ascending (λ a b, leb a b = true) s ∧
        (s = [] → m = NaN) ∧
        (Nat.odd (length s) = true → s !! (length s / 2)%nat = Some m) ∧
        (s ≠ [] → Nat.even (length s) = true →
         ∃ a b, s !! (length s / 2 - 1)%nat = Some a ∧
                s !! (length s / 2)%nat = Some b ∧
                m = div (add a b) (of_Z 2))) ∧
  ∃ rs,
    club_rows pad_nulls model_df feature_cols target_col
      (future_years_list y k) club = Ok rs ∧
    length rs = Z.to_nat k ∧
    (∀ j : nat, (j < Z.to_nat k)%nat →
       ∃ row, rs !! j = Some row ∧
              row !! "Season" = Some (VInt (y + 1 + Z.of_nat j)) ∧
              row !! "Predicted_Attendance"
              = Some (VFloat (mul v (pow (add one m) (S j)))) ∧
              row !! target_col = Some (VFloat NaN) ∧
              (∀ qv qm, v = Fin qv → m = Fin qm →
                 row !! "Predicted_Attendance"
                 = Some (VFloat (Fin (qv * (Q2Qc 1 + qm) ^ S j)%Qc)))) ∧
    (0 < k → last_year model_df = Ok y → club ∈ clubs model_df →
     ∀ blocks,
       mapM (club_rows pad_nulls model_df feature_cols target_col
               (future_years_list y k)) (clubs model_df) = Ok blocks →
       future_rows pad_nulls model_df feature_cols target_col k
       = Ok (Some (concat blocks)) ∧ rs ∈ blocks).
Proof using All.
  intros Hcdf Hlen Htargets Hlast filled growth m.
  destruct (cdf_spec _ _ _ Hcdf) as (Hcols & Hperm & Hasc).
  pose proof (wf_cdf _ _ _ model_wf Hcdf) as Hwfc.
  split_and!.
  - done.
  - done.
  - intros r Hr Hflag. rewrite Hperm. apply list_elem_of_filter. split; [|done].
    unfold club_row. by rewrite Hflag.
  - intros r z Hflag Hz. rewrite Hperm. rewrite list_elem_of_filter.
    intros [Hrow _]. unfold club_row in Hrow. rewrite Hflag in Hrow.
    simpl in Hrow. injection Hrow as Hrow.
    apply bool_decide_eq_true in Hrow. done.
  - intros i j zi zj Hij Hi Hj.
    apply cell_Some in Hi as (ri & ji & Hri & Hji & Hvi).
    apply cell_Some in Hj as (rj & jj & Hrj & Hjj & Hvj).
    destruct (Hasc i j ri rj Hij Hri Hrj) as (z1 & z2 & H1 & H2 & Hle).
    rewrite Hcols in Hji, Hjj. unfold row_get in H1, H2.
    rewrite Hji in H1. rewrite Hjj in H2. simpl in H1, H2.
    rewrite (list_lookup_total_correct _ _ _ Hvi) in H1.
    rewrite (list_lookup_total_correct _ _ _ Hvj) in H2.
    simpl in H1, H2. by simplify_eq.
  - apply length_pct_change.
  - unfold growth, pct_change. apply growth_rates_lookup.
    fold filled. intros Hnil.
    assert (Hl : length filled = length targets).
    { unfold filled. destruct pad_nulls; [apply length_ffill|done]. }
    rewrite Hnil in Hl. destruct targets; [done|discriminate].
  - intros i a b Ha Hb. unfold growth, pct_change.
    by apply growth_rates_lookup.
  - intros i a b Ha Hb Hnz.
    change (growth_rates filled !! S i = Some (Fin (b / a - Q2Qc 1)%Qc)).
    rewrite (proj2 (growth_rates_lookup _) i (Fin a) (Fin b) Ha Hb).
    by rewrite NumFacts.growth_Fin.
  - intros i t Ht Hnan. unfold filled. destruct pad_nulls; [|done].
    by apply ffill_lookup.
  - intros -> i Hi. unfold filled. by apply ffill_lookup.
  - by intros ->.
  - apply median_spec.
  - apply bind_Ok in Htargets as (raw & Hraw & Hnum).
    assert (Hlraw : length raw = length (rows c)) by (by eapply get_col_length).
    assert (Hltargets : length targets = length (rows c)).
    { rewrite <- Hlraw. symmetry. apply mapM_Ok in Hnum. by eapply Forall2_length. }
    assert (Hlg : length (VFloat <$> growth) = length (rows c)).
    { rewrite length_fmap. unfold growth. by rewrite length_pct_change. }
    set (c' := set_col c "growth" (VFloat <$> growth)).
    assert (Hgrowth : get_col c' "growth" = Ok (VFloat <$> growth))
      by (by apply get_col_set_col).
    assert (Hraw' : get_col c' target_col = Ok raw).
    { unfold c'. by rewrite get_col_set_col_ne. }
    destruct (mapM_last _ _ _ _ Hnum Hlast) as (lv & Hlv & Hv).
    assert (Hlrows : length (rows c') = length (rows c))
      by (by apply length_rows_set_col).
    destruct (list.last (rows c')) as [last_row|] eqn:Hrow.
    2:{ apply last_None in Hrow. rewrite Hrow in Hlrows. simpl in Hlrows. lia. }
    assert (Hfeat : Forall (λ col, col ∈ columns c') feature_cols).
    { eapply list.Forall_impl; [exact features_present|].
      intros col Hcol. apply columns_set_col. left. by rewrite Hcols. }
    assert (Hcap : "Capacity" ∈ columns c').
    { apply columns_set_col. left. by rewrite Hcols. }
    destruct (forecast_loop_Ok club (columns c') last_row m v
                (future_years_list y k) Hfeat Hcap)
      as (rs & Hloop & Hlenrs & Hrows).
    assert (Hclub : club_rows pad_nulls model_df feature_cols target_col
                      (future_years_list y k) club = Ok rs).
    { unfold club_rows. rewrite Hcdf. cbn [mbind result_bind].
      destruct (decide (length (rows c) < 2)%nat) as [?|_]; [lia|].
      rewrite Hraw. cbn [mbind result_bind]. rewrite Hnum.
      cbn [mbind result_bind]. cbv zeta. fold growth. fold c'.
      rewrite Hgrowth. cbn [mbind result_bind].
      rewrite mapM_to_num_floats. cbn [mbind result_bind].
      rewrite Hraw'. cbn [mbind result_bind].
      unfold iloc_last. rewrite Hlv. cbn [mbind result_bind].
      rewrite Hv. cbn [mbind result_bind]. rewrite Hrow.
      cbn [mbind result_bind]. exact Hloop. }
    exists rs. split_and!.
    + exact Hclub.
    + rewrite Hlenrs. unfold future_years_list. apply length_seqZ.
    + intros j Hj.
      destruct (Hrows j (y + 1 + Z.of_nat j)) as (row & Hrow' & Hs & Hp & Ht).
      { unfold future_years_list. apply lookup_seqZ. lia. }
      exists row. rewrite Hp, NumFacts.iter_mul_pow. split_and!; [done..|].
      intros qv qm -> Hm. rewrite Hm. do 2 f_equal.
      apply NumFacts.compound_Fin.
    + intros Hk Hy Hin blocks Hblocks. split.
      * unfold future_rows. rewrite bool_decide_eq_true_2 by done.
        rewrite Hy. simpl. by rewrite Hblocks.
      * apply mapM_Ok in Hblocks.
        apply list_elem_of_lookup in Hin as [i Hi].
        destruct (Forall2_lookup_l _ _ _ _ _ Hblocks Hi) as (block & Hblock & Hrun).
        rewrite Hclub in Hrun. injection Hrun as <-.
        by eapply list_elem_of_lookup_2.
Qed.

End future.

(** On the sample, with the feature columns Capacity, Club_A and Club_B:
    the history of club A is put in season order, its growth rates 1/2,
    -1/5 and 1/10 have the median 1/10, and from the last attendance 1320
    the forecast is 1452 for 2024 and 1597.2 for 2025; these two rows open
    the rows of the forecast table, which go on with the two rows of
    club B. *)
Lemma median_growth_compounds_witness :
  ∃ c rs row1 row2 x1 x2 all,
    cdf Samples.growth_df "A" = Ok c ∧
    rows c
    = [[VInt 2020; VStr "A"; VInt 1; VInt 0; VInt 1000; VInt 5000];
       [VInt 2021; VStr "A"; VInt 1; VInt 0; VInt 1500; VInt 5000];
       [VInt 2022; VStr "A"; VInt 1; VInt 0; VInt 1200; VInt 5000];
       [VInt 2023; VStr "A"; VInt 1; VInt 0; VInt 1320; VInt 5000]] ∧
    to_Q <$> pct_change true [of_Z 1000; of_Z 1500; of_Z 1200; of_Z 1320]
    = [None; Some (1 # 2)%Q; Some (-1 # 5)%Q; Some (1 # 10)%Q] ∧
    to_Q (median (pct_change true
                    [of_Z 1000; of_Z 1500; of_Z 1200; of_Z 1320]))
    = Some (1 # 10)%Q ∧
    club_rows true Samples.growth_df ["Capacity"; "Club_A"; "Club_B"]
      "Attendance" (future_years_list 2023 2) "A" = Ok rs ∧
    rs = [row1; row2] ∧
    row1 !! "Season" = Some (VInt 2024) ∧
    row2 !! "Season" = Some (VInt 2025) ∧
    row1 !! "Predicted_Attendance" = Some (VFloat x1) ∧
    row2 !! "Predicted_Attendance" = Some (VFloat x2) ∧
    to_Q x1 = Some (1452 # 1)%Q ∧
    to_Q x2 = Some (7986 # 5)%Q ∧
    row1 !! "Attendance" = Some (VFloat NaN) ∧
    row1 !! "Capacity" = Some (VInt 5000) ∧
    row1 !! "Club_A" = Some (VInt 1) ∧
    row1 !! "Club_B" = Some (VInt 0) ∧
    future_rows true Samples.growth_df ["Capacity"; "Club_A"; "Club_B"]
      "Attendance" 2 = Ok (Some all) ∧
    length all = 4%nat ∧
    all !! 0%nat = Some row1 ∧ all !! 1%nat = Some row2.
Proof.
  destruct (cdf Samples.growth_df "A") as [c|] eqn:Hcdf;
    [|by vm_compute in Hcdf].
  assert (Hrows : rows c
                  = [[VInt 2020; VStr "A"; VInt 1; VInt 0; VInt 1000; VInt 5000];
                     [VInt 2021; VStr "A"; VInt 1; VInt 0; VInt 1500; VInt 5000];
                     [VInt 2022; VStr "A"; VInt 1; VInt 0; VInt 1200; VInt 5000];
                     [VInt 2023; VStr "A"; VInt 1; VInt 0; VInt 1320; VInt 5000]]).
  { vm_compute in Hcdf. by injection Hcdf as <-. }
  assert (Htargets : get_col c "Attendance" ≫= mapM to_num
                     = Ok [of_Z 1000; of_Z 1500; of_Z 1200; of_Z 1320]).
  { vm_compute in Hcdf. injection Hcdf as <-. by vm_compute. }
  destruct (median_growth_compounds true Samples.growth_df
              ["Capacity"; "Club_A"; "Club_B"] "Attendance"
              ltac:(repeat constructor)
              ltac:(by apply (bool_decide_unpack _); vm_compute)
              ltac:(by apply (bool_decide_unpack _); vm_compute)
              ltac:(by apply (bool_decide_unpack _); vm_compute)
              ltac:(by apply (bool_decide_unpack _); vm_compute)
              ltac:(done) ltac:(done) ltac:(done)
              "A" c [of_Z 1000; of_Z 1500; of_Z 1200; of_Z 1320] (of_Z 1320)
              2023 2 Hcdf ltac:(rewrite Hrows; simpl; lia) Htargets eq_refl)
    as (_ & _ & _ & rs & Hrs & Hlen & Hrow & Hlink).
  destruct (Hrow 0%nat ltac:(simpl; lia)) as (row1 & H1 & Hs1 & Hp1 & Ht1 & _).
  destruct (Hrow 1%nat ltac:(simpl; lia)) as (row2 & H2 & Hs2 & Hp2 & _).
  assert (Hrs2 : rs = [row1; row2]).
  { destruct rs as [|a [|b [|? ?]]]; simpl in Hlen; try (vm_compute in Hlen; lia).
    simpl in H1, H2. by simplify_eq. }
  assert (Hfield : ∀ key v,
            (λ rs, rs !! 0%nat ≫= (.!! key))
              <$> club_rows true Samples.growth_df
                    ["Capacity"; "Club_A"; "Club_B"] "Attendance"
                    (future_years_list 2023 2) "A" = Ok (Some v) →
            row1 !! key = Some v).
  { intros key v E. rewrite Hrs, Hrs2 in E. by injection E. }
  assert (HB : ∃ bB,
            club_rows true Samples.growth_df ["Capacity"; "Club_A"; "Club_B"]
              "Attendance" (future_years_list 2023 2) "B" = Ok bB ∧
            length bB = 2%nat).
  { assert (E : length <$> club_rows true Samples.growth_df
                             ["Capacity"; "Club_A"; "Club_B"] "Attendance"
                             (future_years_list 2023 2) "B" = Ok 2%nat)
      by (by vm_compute).
    destruct (club_rows true Samples.growth_df ["Capacity"; "Club_A"; "Club_B"]
                "Attendance" (future_years_list 2023 2) "B") as [bB|e];
      [|discriminate E].
    exists bB. split; [done|]. by injection E. }
  destruct HB as (bB & HB & HlenB).
  assert (Hclubs : clubs Samples.growth_df = ["A"; "B"]) by (by vm_compute).
  destruct (Hlink ltac:(lia) ltac:(by vm_compute)
              ltac:(rewrite Hclubs; by left) [rs; bB]) as [Hfut _].
  { rewrite Hclubs. apply mapM_Ok. by repeat constructor. }
  exists c, rs, row1, row2, (mul (of_Z 1320)
    (pow (add one (median (pct_change true
       [of_Z 1000; of_Z 1500; of_Z 1200; of_Z 1320]))) 1)),
    (mul (of_Z 1320)
    (pow (add one (median (pct_change true
       [of_Z 1000; of_Z 1500; of_Z 1200; of_Z 1320]))) 2)),
    (concat [rs; bB]).
  split; [reflexivity|]. split; [exact Hrows|].
  split; [by vm_compute|]. split; [by vm_compute|].
  split; [exact Hrs|]. split; [exact Hrs2|].
  split; [exact Hs1|]. split; [exact Hs2|].
  split; [exact Hp1|]. split; [exact Hp2|].
  split; [by vm_compute|]. split; [by vm_compute|].
  split; [exact Ht1|].
  split; [apply Hfield; by vm_compute|].
  split; [apply Hfield; by vm_compute|].
  split; [apply Hfield; by vm_compute|].
  split; [exact Hfut|].
  rewrite Hrs2. simpl. rewrite length_app, HlenB. done.
Defined.

(** C2 against the code, on two inputs.  A club whose dummy column exists
    but that has no row at all, in a table with a Capacity column: the read
    of the last capacity raises.  A club with one row, when the dummy
    columns and Capacity are among the feature columns: the loop that nulls
    the feature columns runs last and overwrites the dummy columns and
    Capacity with null. *)
Theorem sparse_club_rows_diverge :
  future_rows true Samples.absent_club_df [] "Attendance" 1 = Raise IndexError ∧
  ∃ row,
    club_rows true Samples.attendance_df ["Capacity"; "Club_A"; "Club_B"]
      "Attendance" [2024] "B" = Ok [row] ∧
    row !! "Club_B" = Some (VFloat NaN) ∧
    row !! "Club_A" = Some (VFloat NaN) ∧
    row !! "Capacity" = Some (VFloat NaN) ∧
    row !! "Predicted_Attendance" = Some (VFloat NaN) ∧
    row !! "Attendance" = Some (VFloat NaN).
Proof.
  split; [by vm_compute|].
  eexists. split; [by vm_compute|].
  split_and!; by vm_compute.
Qed.

End ForecastFacts.

(** ** Facts about the string operations *)

Module PyStrFacts.
Import PyStr.

Lemma app_cons (c : ascii) (s t : string) :
  String c s +:+ t = String c (s +:+ t).
Proof. reflexivity. Qed.

Lemma app_nil_r (s : string) : s +:+ "" = s.
Proof. induction s as [|c s IH]; [done|]. by rewrite app_cons, IH. Qed.

Lemma app_assoc (s t u : string) : (s +:+ t) +:+ u = s +:+ (t +:+ u).
Proof. induction s as [|c s IH]; [done|]. by rewrite !app_cons, IH. Qed.

Lemma length_app (s t : string) :
  String.length (s +:+ t) = (String.length s + String.length t)%nat.
Proof. induction s as [|c s IH]; [done|]. rewrite app_cons. simpl. by rewrite IH. Qed.

Lemma app_inv_tail (s t u : string) : s +:+ u = t +:+ u → s = t.
Proof.
  revert t. induction s as [|c s IH]; intros [|d t] H; try done.
  - change (u = String d (t +:+ u)) in H.
    apply (f_equal String.length) in H. simpl in H.
    rewrite length_app in H. lia.
  - change (String c (s +:+ u) = u) in H.
    apply (f_equal String.length) in H. simpl in H.
    rewrite length_app in H. lia.
  - rewrite !app_cons in H. injection H as -> H. f_equal. by apply IH.
Qed.

Lemma rev_app_spec (s t : string) :
  String.rev_app s t = String.rev s +:+ t.
Proof.
  unfold String.rev. revert t. induction s as [|c s IH]; intros t; simpl; [done|].
  rewrite (IH (String c t)), (IH (String c "")), app_assoc. done.
Qed.

Lemma rev_cons (c : ascii) (s : string) :
  String.rev (String c s) = String.rev s +:+ String c "".
Proof. unfold String.rev at 1. simpl. apply rev_app_spec. Qed.

(** *** Prefixes *)

Lemma prefix_app (p s : string) : String.prefix p (p +:+ s) = true.
Proof.
  induction p as [|c p IH]; [by destruct s|].
  rewrite app_cons. simpl. by destruct (ascii_dec c c).
Qed.

Lemma prefix_split (p s : string) :
  String.prefix p s = true → s = p +:+ drop (String.length p) s.
Proof.
  revert s. induction p as [|c p IH]; intros s H; [by destruct s|].
  destruct s as [|d s]; [done|]. simpl in H.
  destruct (ascii_dec c d) as [->|]; [|done].
  rewrite app_cons. simpl. f_equal. by apply IH.
Qed.

Lemma drop_app (p s : string) : drop (String.length p) (p +:+ s) = s.
Proof. induction p as [|c p IH]; [by destruct s|]. by rewrite app_cons. Qed.

Lemma drop_0 (s : string) : drop 0 s = s.
Proof. by destruct s. Qed.

Lemma drop_nil (n : nat) : drop n "" = "".
Proof. by destruct n. Qed.

Lemma drop_drop (n m : nat) (s : string) : drop n (drop m s) = drop (m + n) s.
Proof.
  revert s. induction m as [|m IH]; intros s; simpl.
  - done.
  - destruct s as [|c s]; [by rewrite drop_nil|]. apply IH.
Qed.

Lemma contains_false (sub s : string) :
  contains sub s = false ↔ ∀ n, String.prefix sub (drop n s) = false.
Proof.
  induction s as [|c s IH]; simpl.
  - rewrite orb_false_r. split.
    + intros H n. by rewrite drop_nil.
    + intros H. apply (H 0%nat).
  - rewrite orb_false_iff, IH. split.
    + intros [H0 H] [|n]; [done|]. apply H.
    + intros H. split; [apply (H 0%nat)|]. intros n. apply (H (S n)).
Qed.

Lemma contains_tail (sub : string) (c : ascii) (s : string) :
  contains sub (String c s) = false → contains sub s = false.
Proof. simpl. by intros [_ ?]%orb_false_iff. Qed.

(** *** [replace] *)

Lemma replace_go_skip (old new : string) (k : nat) (s : string) :
  (k ≤ String.length s)%nat →
  replace_go old new k s = replace_go old new 0 (drop k s).
Proof.
  revert k. induction s as [|c s IH]; intros k Hk.
  - by destruct k.
  - destruct k as [|k]; [done|]. simpl in *. apply IH. lia.
Qed.

(** A text in which [old] does not occur is left as it is. *)
Lemma replace_go_absent (old new s : string) :
  contains old s = false → replace_go old new 0 s = s.
Proof.
  induction s as [|c s IH]; [done|]. intros H.
  pose proof (contains_tail _ _ _ H) as H'.
  cbn [contains] in H. apply orb_false_iff in H as [H0 _].
  cbn [replace_go]. rewrite H0. f_equal. by apply IH.
Qed.

Lemma replace_absent (old new s : string) :
  old ≠ "" → contains old s = false → replace old new s = s.
Proof.
  intros Hne H. unfold replace. destruct old; [done|]. by apply replace_go_absent.
Qed.

(** An occurrence at the start is replaced, and the rest is treated from
    behind it. *)
Lemma replace_prefix (old new s : string) :
  old ≠ "" → replace old new (old +:+ s) = new +:+ replace old new s.
Proof.
  intros Hne. unfold replace. destruct old as [|c old]; [done|].
  rewrite app_cons. cbn [replace_go].
  change (String c (old +:+ s)) with (String c old +:+ s).
  rewrite prefix_app. f_equal.
  replace (String.length (String c old) - 1)%nat with (String.length old)
    by (simpl; lia).
  rewrite replace_go_skip by (rewrite length_app; lia).
  by rewrite drop_app.
Qed.

(** *** [split] and [join] *)

Lemma concat_cons (sep x : string) (l : list string) :
  l ≠ [] → String.concat sep (x :: l) = x +:+ sep +:+ String.concat sep l.
Proof. by destruct l. Qed.

Lemma split_go_nonempty (sep : string) (skip : nat) (cur s : string) :
  split_go sep skip cur s ≠ [].
Proof.
  revert skip cur. induction s as [|c s IH]; intros skip cur; [done|].
  cbn [split_go]. destruct skip; [|apply IH].
  destruct (String.prefix sep (String c s)); [done|apply IH].
Qed.

Lemma join_split_go (sep : string) (skip : nat) (cur s : string) :
  sep ≠ "" → (skip ≤ String.length s)%nat →
  join sep (split_go sep skip cur s) = String.rev cur +:+ drop skip s.
Proof.
  intros Hne. revert skip cur. induction s as [|c s IH]; intros skip cur Hskip.
  - destruct skip; simpl in *; [|lia]. by rewrite app_nil_r.
  - destruct skip as [|k]; cbn [split_go].
    + destruct (String.prefix sep (String c s)) eqn:Hpre.
      * unfold join. rewrite concat_cons by apply split_go_nonempty.
        fold (join sep (split_go sep (String.length sep - 1) "" s)).
        pose proof (prefix_split _ _ Hpre) as Hs.
        destruct sep as [|d sep]; [done|].
        rewrite app_cons in Hs. cbn [String.length drop] in Hs.
        injection Hs as -> Hs.
        assert (Hlen : (String.length sep ≤ String.length s)%nat).
        { rewrite Hs, length_app. lia. }
        replace (String.length (String d sep) - 1)%nat with (String.length sep)
          by (simpl; lia).
        rewrite IH by lia.
        change (String.rev "") with "". change ("" +:+ drop (String.length sep) s)
          with (drop (String.length sep) s).
        cbn [drop]. rewrite app_cons. rewrite Hs at 2. done.
      * rewrite IH by (simpl; lia). rewrite rev_cons, app_assoc. done.
    + simpl in Hskip. rewrite IH by lia. done.
Qed.

(** Splitting a text and joining the pieces with the separator gives the
    text back. *)
Lemma join_split (sep s : string) :
  sep ≠ "" → join sep (split sep s) = s.
Proof.
  intros Hne. unfold split. rewrite join_split_go by (done || lia).
  by rewrite drop_0.
Qed.

(** *** [split(sep, 1)] *)

Lemma partition_go_spec (sep cur s a b : string) :
  partition_go sep cur s = Some (a, b) →
  String.rev cur +:+ s = a +:+ sep +:+ b.
Proof.
  revert cur. induction s as [|c s IH]; intros cur; [done|]. cbn [partition_go].
  destruct (String.prefix sep (String c s)) eqn:Hpre.
  - intros [= <- <-]. f_equal. by apply prefix_split.
  - intros H. apply IH in H. by rewrite rev_cons, app_assoc in H.
Qed.

End PyStrFacts.

(** ** src/data_utils.py: dropping, mapping and splitting columns *)

Module ColumnFacts.
Import DataUtils WslConfig FrameFacts PyStrFacts.

(** *** drop_columns *)

Lemma length_drop_cells (labels cols : list string) (r : list value) :
  length r = length labels →
  length (drop_cells labels cols r)
  = length (filter (λ c, c ∉ cols) labels).
Proof.
  revert r. induction labels as [|x labels IH]; intros [|v r] Hlen;
    simplify_eq/=; [done|].
  rewrite filter_cons. destruct (decide (x ∈ cols)) as [Hx|Hx].
  - rewrite (bool_decide_eq_true_2 _ Hx), decide_False by auto. by apply IH.
  - rewrite (bool_decide_eq_false_2 _ Hx), decide_True by done.
    simpl. f_equal. by apply IH.
Qed.

(** A label that is not listed is found, after the drop, over the cell it
    was over before. *)
Lemma drop_cells_lookup (labels cols : list string) (r : list value)
    (c : string) :
  length r = length labels → c ∉ cols →
  col_index c (filter (λ c, c ∉ cols) labels) ≫= (drop_cells labels cols r !!.)
  = col_index c labels ≫= (r !!.).
Proof.
  intros Hlen Hc. revert r Hlen.
  induction labels as [|x labels IH]; intros [|v r] Hlen; simplify_eq/=; [done|].
  rewrite filter_cons, (WslUtilsFacts.col_index_cons c x labels).
  destruct (decide (x ∈ cols)) as [Hx|Hx].
  - rewrite (bool_decide_eq_true_2 _ Hx), decide_False by auto.
    rewrite decide_False by (by intros ->). rewrite IH by done.
    by destruct (col_index c labels).
  - rewrite (bool_decide_eq_false_2 _ Hx), decide_True by done.
    rewrite WslUtilsFacts.col_index_cons.
    destruct (decide (x = c)); [done|]. specialize (IH r Hlen).
    destruct (col_index c (filter _ labels)), (col_index c labels); done.
Qed.

Lemma drop_cells_none (labels cols : list string) (r : list value) :
  length r = length labels → Forall (λ c, c ∉ cols) labels →
  drop_cells labels cols r = r.
Proof.
  intros Hlen Hall. revert r Hlen.
  induction Hall as [|x labels Hx _ IH]; intros [|v r] Hlen; simplify_eq/=; [done|].
  rewrite (bool_decide_eq_false_2 _ Hx). f_equal. by apply IH.
Qed.

Lemma wf_drop_columns (df : DataFrame) (cols : list string) :
  wf df → wf (drop_columns df cols).
Proof.
  intros Hwf. unfold wf, drop_columns. simpl.
  apply Forall_fmap. eapply list.Forall_impl; [exact Hwf|].
  intros r Hr. simpl. by apply length_drop_cells.
Qed.

Lemma cell_drop_columns (df : DataFrame) (cols : list string) (i : nat)
    (c : string) :
  wf df → c ∉ cols → cell (drop_columns df cols) i c = cell df i c.
Proof.
  intros Hwf Hc. unfold cell, drop_columns. simpl.
  rewrite list_lookup_fmap.
  destruct (rows df !! i) as [r|] eqn:Hr; simpl; [|done].
  apply drop_cells_lookup; [|done]. by eapply wf_lookup.
Qed.

(** X1 ([drop_columns]): on a table whose rows are complete, the listed
    labels are gone afterwards and reading one of them is a missing-column
    error; every other column is still there with the cells it had, row by
    row; the number of rows is kept; and listed labels that are no column
    of the table are passed over, the table coming back as it was. *)
Theorem drop_columns_drops_listed (df : DataFrame) (cols : list string) :
  wf df →
  wf (drop_columns df cols) ∧
  length (rows (drop_columns df cols)) = length (rows df) ∧
  (∀ c, c ∈ columns (drop_columns df cols) ↔ c ∈ columns df ∧ c ∉ cols) ∧
  (∀ i c, c ∉ cols → cell (drop_columns df cols) i c = cell df i c) ∧
  (∀ c, c ∈ cols → get_col (drop_columns df cols) c = Raise (KeyError c)) ∧
  (Forall (λ c, c ∉ columns df) cols → drop_columns df cols = df).
Proof.
  intros Hwf. split_and!.
  - by apply wf_drop_columns.
  - unfold drop_columns. simpl. by rewrite length_fmap.
  - intros c. unfold drop_columns. simpl. by rewrite list_elem_of_filter, (comm and).
  - intros i c Hc. by apply cell_drop_columns.
  - intros c Hc. apply get_col_Raise. unfold drop_columns. simpl.
    rewrite list_elem_of_filter. by intros [? _].
  - intros Hnone.
    assert (Hkeep : Forall (λ c, c ∉ cols) (columns df)).
    { apply list.Forall_forall. intros c Hc Hin.
      by apply (proj1 (list.Forall_forall _ _) Hnone c Hin). }
    destruct df as [labels rs]. unfold drop_columns. simpl in *. f_equal.
    + clear Hwf Hnone. induction Hkeep as [|x labels Hx _ IH]; [done|].
      rewrite filter_cons, decide_True by done. by f_equal.
    + apply list_eq. intros i. rewrite list_lookup_fmap.
      destruct (rs !! i) as [r|] eqn:Hr; simpl; [|done]. f_equal.
      apply drop_cells_none; [|done].
      by apply (wf_lookup (mkDF labels rs) i r Hwf).
Qed.

Lemma drop_columns_drops_listed_witness :
  columns (drop_columns Samples.season_raw ["Rk"; "Notes"])
  = ["Squad"; "Attendance"; "Top Team Scorer"] ∧
  cell (drop_columns Samples.season_raw ["Rk"; "Notes"]) 1 "Squad"
  = Some (VStr "Club Crest Arsenal") ∧
  get_col (drop_columns Samples.season_raw ["Rk"; "Notes"]) "Rk"
  = Raise (KeyError "Rk").
Proof.
  assert (Hwf : wf Samples.season_raw) by (repeat constructor).
  destruct (drop_columns_drops_listed Samples.season_raw ["Rk"; "Notes"] Hwf)
    as (_ & _ & _ & Hcell & Hgone & _).
  split; [reflexivity|]. split.
  - rewrite Hcell; [reflexivity|]. apply (bool_decide_unpack _). by vm_compute.
  - apply Hgone. by left.
Defined.

(** X2 ([WSL_DROP_COLUMNS]): the list ends in one fused label, so dropping
    the listed columns from a cleaned season table removes neither
    [Top_Scorer] nor [Expected_Goals_Difference_Per_90_Mins]; both stay
    with their cells, while a listed column such as [Goalkeeper] goes. *)
Theorem wsl_drop_columns_keeps_top_scorer (df : DataFrame) (c : string) :
  wf df →
  c = "Top_Scorer" ∨ c = "Expected_Goals_Difference_Per_90_Mins" →
  "Expected_Goals_Difference_Per_90_MinsTop_Scorer" ∈ WSL_DROP_COLUMNS ∧
  (c ∉ WSL_DROP_COLUMNS) ∧
  (c ∈ columns df → c ∈ columns (drop_columns df WSL_DROP_COLUMNS)) ∧
  (∀ i, cell (drop_columns df WSL_DROP_COLUMNS) i c = cell df i c) ∧
  get_col (drop_columns df WSL_DROP_COLUMNS) "Goalkeeper"
  = Raise (KeyError "Goalkeeper").
Proof.
  intros Hwf Hc.
  assert (Hnot : c ∉ WSL_DROP_COLUMNS).
  { destruct Hc as [-> | ->]; apply (bool_decide_unpack _); by vm_compute. }
  split_and!.
  - apply (bool_decide_unpack _). by vm_compute.
  - done.
  - intros Hin. unfold drop_columns. simpl. by apply list_elem_of_filter.
  - intros i. by apply cell_drop_columns.
  - apply get_col_Raise. unfold drop_columns. simpl.
    rewrite list_elem_of_filter. intros [Hno _]. apply Hno.
    apply (bool_decide_unpack _). by vm_compute.
Qed.

Lemma wsl_drop_columns_keeps_top_scorer_witness :
  columns (drop_columns (mkDF ["Club"; "Goalkeeper"; "Top_Scorer"]
                              [[VStr "Arsenal"; VStr "x"; VStr "y - 3"]])
                        WSL_DROP_COLUMNS)
  = ["Club"; "Top_Scorer"] ∧
  cell (drop_columns (mkDF ["Club"; "Goalkeeper"; "Top_Scorer"]
                           [[VStr "Arsenal"; VStr "x"; VStr "y - 3"]])
                     WSL_DROP_COLUMNS) 0 "Top_Scorer"
  = Some (VStr "y - 3").
Proof.
  split; [reflexivity|].
  destruct (wsl_drop_columns_keeps_top_scorer
              (mkDF ["Club"; "Goalkeeper"; "Top_Scorer"]
                    [[VStr "Arsenal"; VStr "x"; VStr "y - 3"]]) "Top_Scorer")
    as (_ & _ & _ & Hcell & _).
  - repeat constructor.
  - by left.
  - rewrite Hcell. reflexivity.
Defined.

(** *** map_values *)

Lemma length_map_fill (m : gmap string string) (vs : list value) :
  length (zip_with fillna_cell (map_cell m <$> vs) vs) = length vs.
Proof. rewrite length_zip_with, length_fmap. lia. Qed.

Lemma lookup_map_fill (m : gmap string string) (vs : list value) (i : nat) :
  zip_with fillna_cell (map_cell m <$> vs) vs !! i
  = (λ v, fillna_cell (map_cell m v) v) <$> vs !! i.
Proof.
  rewrite lookup_zip_with, list_lookup_fmap. by destruct (vs !! i).
Qed.

(** A text takes its image, or stays when it is no key. *)
Lemma fill_map_text (m : gmap string string) (s : string) :
  fillna_cell (map_cell m (VStr s)) (VStr s) = VStr (default s (m !! s)).
Proof. unfold fillna_cell, map_cell. by destruct (m !! s). Qed.

Lemma club_name_map_settled : settled CLUB_NAME_MAP.
Proof.
  intros k s t Hk Hs. apply elem_of_list_to_map_2 in Hk.
  repeat (apply elem_of_cons in Hk as [Hk|Hk];
          [simplify_eq; by vm_compute in Hs; simplify_eq|]).
  by apply elem_of_nil in Hk.
Qed.

(** X3 ([map_values]): on a table with distinct labels and for a mapping
    from texts to texts, a text cell of the column that is a key takes its
    image and a text cell that is no key keeps its text: it does not
    become null.  The other columns and the number of rows are untouched.
    A column that the table lacks is a missing-column error.  With the
    club-name mapping, West_Ham_United becomes West_Ham and Arsenal
    stays. *)
Theorem map_values_maps_or_keeps (df : DataFrame) (column : string)
    (mapping_dict : gmap string string) :
  wf df → NoDup (columns df) →
  (column ∈ columns df →
     ∃ df', map_values df column mapping_dict = Ok df' ∧ wf df' ∧
       columns df' = columns df ∧ length (rows df') = length (rows df) ∧
       (∀ i c, c ≠ column → cell df' i c = cell df i c) ∧
       (∀ i s t, cell df i column = Some (VStr s) →
          mapping_dict !! s = Some t →
          cell df' i column = Some (VStr t)) ∧
       (∀ i s, cell df i column = Some (VStr s) →
          mapping_dict !! s = None →
          cell df' i column = Some (VStr s))) ∧
  (column ∉ columns df →
     map_values df column mapping_dict = Raise (KeyError column)) ∧
  (λ v, fillna_cell (map_cell CLUB_NAME_MAP v) v)
    <$> [VStr "West_Ham_United"; VStr "Arsenal"; VStr "Tottenham_Hotspur";
         VStr "Manchester_United"; VStr "Brighton_&_Hove_Albion"]
  = [VStr "West_Ham"; VStr "Arsenal"; VStr "Tottenham";
     VStr "Manchester_United"; VStr "Brighton"].
Proof.
  intros Hwf _. split_and!.
  - intros Hin. destruct (get_col_Ok _ _ Hin) as [vs Hvs].
    pose proof (get_col_length _ _ _ Hvs) as Hlen.
    unfold map_values. rewrite Hvs. simpl. eexists. split; [reflexivity|].
    assert (Hlen' : length (zip_with fillna_cell (map_cell mapping_dict <$> vs) vs)
                    = length (rows df)) by (by rewrite length_map_fill).
    assert (Hcell : ∀ i s, cell df i column = Some (VStr s) →
              cell (set_col df column
                      (zip_with fillna_cell (map_cell mapping_dict <$> vs) vs))
                   i column
              = Some (VStr (default s (mapping_dict !! s)))).
    { intros i s Hv. rewrite <- (get_col_lookup _ _ _ i Hwf Hvs) in Hv.
      apply cell_set_col_eq; [done| |].
      - rewrite <- Hlen. by eapply lookup_lt_Some.
      - by rewrite lookup_map_fill, Hv, <- fill_map_text. }
    split_and!.
    + by apply wf_set_col.
    + by apply columns_set_col_in.
    + by apply length_rows_set_col.
    + intros i c Hne. by apply cell_set_col_ne.
    + intros i s t Hv Hs. rewrite (Hcell i s Hv), Hs. done.
    + intros i s Hv Hs. rewrite (Hcell i s Hv), Hs. done.
  - intros Hout. unfold map_values. by rewrite get_col_Raise.
  - by vm_compute.
Qed.

Lemma map_values_maps_or_keeps_witness :
  ∃ df', map_values (mkDF ["Club"; "Points"]
                       [[VStr "West_Ham_United"; VInt 3];
                        [VStr "Arsenal"; VInt 7]])
           "Club" CLUB_NAME_MAP = Ok df' ∧
         cell df' 0 "Club" = Some (VStr "West_Ham") ∧
         cell df' 1 "Club" = Some (VStr "Arsenal") ∧
         cell df' 1 "Points" = Some (VInt 7).
Proof.
  destruct (proj1 (map_values_maps_or_keeps
                     (mkDF ["Club"; "Points"]
                        [[VStr "West_Ham_United"; VInt 3];
                         [VStr "Arsenal"; VInt 7]])
                     "Club" CLUB_NAME_MAP
                     ltac:(repeat constructor)
                     ltac:(by apply (bool_decide_unpack _); vm_compute)))
    as (df' & Hok & _ & _ & _ & Hother & Hkey & Hno);
    [apply (bool_decide_unpack _); by vm_compute|].
  exists df'. split; [exact Hok|]. split_and!.
  - by apply (Hkey 0%nat "West_Ham_United").
  - by apply (Hno 1%nat "Arsenal").
  - by rewrite Hother.
Defined.

(** X4 ([map_values], [CLUB_NAME_MAP]): on a column of texts, mapping a
    second time changes nothing when the mapping is settled, that is when
    none of its images is a key with another image; the club-name mapping
    of the configuration is settled. *)
Theorem map_values_idempotent (df : DataFrame) (column : string)
    (mapping_dict : gmap string string) (vs : list value) :
  wf df → NoDup (columns df) → settled mapping_dict →
  get_col df column = Ok vs → Forall (λ v, ∃ s, v = VStr s) vs →
  settled CLUB_NAME_MAP ∧
  ∃ df', map_values df column mapping_dict = Ok df' ∧
         map_values df' column mapping_dict = Ok df'.
Proof.
  intros Hwf _ Hm Hvs Htext. split; [apply club_name_map_settled|].
  pose proof (get_col_length _ _ _ Hvs) as Hlen.
  set (vs1 := zip_with fillna_cell (map_cell mapping_dict <$> vs) vs).
  exists (set_col df column vs1).
  assert (Hfirst : map_values df column mapping_dict
                   = Ok (set_col df column vs1)).
  { unfold map_values. by rewrite Hvs. }
  split; [exact Hfirst|].
  assert (Hlen1 : length vs1 = length (rows df))
    by (unfold vs1; by rewrite length_map_fill).
  assert (Hget : get_col (set_col df column vs1) column = Ok vs1)
    by (by apply get_col_set_col).
  unfold map_values. rewrite Hget. simpl. f_equal.
  assert (Hsame : zip_with fillna_cell (map_cell mapping_dict <$> vs1) vs1 = vs1).
  { apply list_eq. intros i. rewrite lookup_map_fill. unfold vs1.
    rewrite lookup_map_fill. destruct (vs !! i) as [v|] eqn:Hv; simpl; [|done].
    assert (Hin : v ∈ vs) by (by eapply list_elem_of_lookup_2).
    destruct (proj1 (list.Forall_forall _ _) Htext v Hin) as [s ->].
    f_equal. rewrite !fill_map_text.
    destruct (mapping_dict !! s) as [t|] eqn:Hs; simpl.
    - destruct (mapping_dict !! t) as [u|] eqn:Ht; simpl; [|done].
      by rewrite (Hm s t u Hs Ht).
    - by rewrite Hs. }
  rewrite Hsame. apply set_col_own; [by apply wf_set_col|done].
Qed.

Lemma map_values_idempotent_witness :
  ∃ df', map_values (mkDF ["Club"] [[VStr "West_Ham_United"]; [VStr "Arsenal"]])
           "Club" CLUB_NAME_MAP = Ok df' ∧
         rows df' = [[VStr "West_Ham"]; [VStr "Arsenal"]] ∧
         map_values df' "Club" CLUB_NAME_MAP = Ok df'.
Proof.
  destruct (map_values_idempotent
              (mkDF ["Club"] [[VStr "West_Ham_United"]; [VStr "Arsenal"]])
              "Club" CLUB_NAME_MAP [VStr "West_Ham_United"; VStr "Arsenal"])
    as (_ & df' & Hfirst & Hsecond).
  - repeat constructor.
  - apply (bool_decide_unpack _). by vm_compute.
  - apply club_name_map_settled.
  - reflexivity.
  - repeat constructor; by eexists.
  - exists df'. split; [exact Hfirst|]. split; [|exact Hsecond].
    vm_compute in Hfirst. by injection Hfirst as <-.
Defined.

End ColumnFacts.
